(** * Verification of [model.py]: BERT classification head, metrics and
      the estimator's mode dispatcher

    The development embeds the three functions of [model.py]
    ([create_model], [metric_fn], and the [model_fn] closure returned by
    [model_fn_builder]) and proves the properties the specification
    states about them.

    Modelling conventions.
    - [tf.float32] values are idealised as real numbers ([R] of the
      Standard Library): rounding, overflow and NaN are not modelled.
      The arithmetic of the TensorFlow operations follows their
      documented formulas.
    - [tf.int32] values are integers ([Z]).
    - Tensors are nested lists, outermost axis first; an axis of size 0
      carries no inner shape.
    - The graph is evaluated as it is built: a tensor is its value, its
      static shape is the shape of its value, and an error TensorFlow
      reports only when the graph runs (an empty reduction axis) is raised
      by the call that builds the operation.  A graph built on tensors
      whose batch dimension is unknown until it runs is outside the
      model.
    - Every call that leaves [model.py] (TensorFlow, TensorFlow Hub, the
      [bert] package) and every entry into a function of [model.py] is
      recorded in a trace, in program order; a Python exception ends the
      run and keeps the trace recorded so far.
    - The metric operations and the training step are kept symbolic: the
      shapes the metrics accept are modelled, what they compute is not.
    - What [model.py] imports but does not define (the pretrained
      encoder, the current value of the trainable variables, the random
      draw of dropout, the constants [tf.estimator.ModeKeys] and
      [BERT_MODEL_HUB]) is a parameter of the development. *)

From Stdlib Require Import Reals Lra Lia ZArith List.
From stdpp Require Import base option list gmap strings.

Local Open Scope string_scope.
Local Open Scope list_scope.

(** ** Tensors *)

(** Integer tensors ([tf.int32]) of rank 0, 1 and 2. *)
Inductive tensor : Type :=
  | IntScalar (z : Z)
  | IntVector (v : list Z)
  | IntMatrix (m : list (list Z)).

(** Float tensors ([tf.float32]) of rank 0 to 3. *)
Inductive ftensor : Type :=
  | FScalar (x : R)
  | FVector (v : list R)
  | FMatrix (m : list (list R))
  | FCube (c : list (list (list R))).

(** ** Exceptions, traces and the monad of runs *)

Inductive exn : Type :=
  | KeyError (key : string)
  | ValueError (what : string)
  | InvalidArgumentError (op : string).

Inductive metric_kind : Type :=
  | Accuracy | F1Score | Auc | Recall | Precision
  | TruePositives | TrueNegatives | FalsePositives | FalseNegatives.

Inductive event : Type :=
  (* entry into a function of model.py *)
  | CallCreateModel (is_predicting : bool)
  | CallMetricFn (label_ids predicted_labels : tensor)
  (* tensorflow_hub *)
  | HubModule (handle : string) (trainable : bool)
  | HubApply (signature : string) (as_dict : bool)
  (* tensorflow *)
  | GetVariable (name : string) (shape : list nat)
  | VariableScope (name : string)
  | Dropout (x : list (list R)) (keep_prob : R)
  | MatMul (transpose_b : bool)
  | BiasAdd
  | LogSoftmax
  | OneHot (indices : tensor) (depth : nat)
  | ArgMax
  | Squeeze
  | Mul
  | ReduceSum
  | Neg
  | ReduceMean
  | Metric (kind : metric_kind)
  | NewEstimatorSpec (mode : string)
  (* bert.optimization *)
  | CreateOptimizer (loss learning_rate : R)
      (num_train_steps num_warmup_steps : Z) (use_tpu : bool).

Definition trace := list event.

(** A run ends in an exception or a value, and leaves a trace. *)
Definition M (A : Type) : Type := (exn + A) * trace.

#[global] Instance M_ret : MRet M := fun A (a : A) => (inr a, []).

#[global] Instance M_bind : MBind M := fun A B (f : A → M B) (m : M A) =>
  match m with
  | (inl e, t) => (inl e, t)
  | (inr a, t) => let '(r, t') := f a in (r, t ++ t')
  end.

Definition raise {A} (e : exn) : M A := (inl e, []).
Definition emit (e : event) : M unit := (inr tt, [e]).

Definition outcome {A} (m : M A) : exn + A := fst m.
Definition events {A} (m : M A) : trace := snd m.

(** [d[k]] on a Python dict. *)
Definition getitem {V} (d : gmap string V) (k : string) : M V :=
  match d !! k with
  | Some v => mret v
  | None => raise (KeyError k)
  end.

(** ** Arithmetic of the TensorFlow operations *)

Section TensorOps.
Local Open Scope R_scope.

Definition sum_list (xs : list R) : R := fold_right Rplus 0 xs.

(** [tf.nn.dropout(x, keep_prob)]: a kept unit is scaled by
    [1 / keep_prob], a dropped one is 0.  [draw i j] is the random draw
    for unit [j] of example [i] ([true]: kept). *)
Definition dropout (draw : nat → nat → bool) (keep_prob : R)
    (x : list (list R)) : list (list R) :=
  imap (fun i row =>
          imap (fun j v => if draw i j then v / keep_prob else 0) row) x.

Definition dot (x w : list R) : R := sum_list (zip_with Rmult x w).

(** [tf.matmul(a, b, transpose_b=True)]. *)
Definition matmul_transpose_b (a b : list (list R)) : list (list R) :=
  map (fun x => map (fun w => dot x w) b) a.

(** [tf.nn.bias_add(value, bias)]. *)
Definition bias_add (value : list (list R)) (bias : list R) : list (list R) :=
  map (fun row => zip_with Rplus row bias) value.

(** [tf.nn.log_softmax(logits, axis=-1)]:
    [logits - log(reduce_sum(exp(logits), axis))]. *)
Definition log_softmax_row (logits : list R) : list R :=
  let s := ln (sum_list (map exp logits)) in
  map (fun x => x - s) logits.

Definition log_softmax (logits : list (list R)) : list (list R) :=
  map log_softmax_row logits.

(** [tf.one_hot(indices, depth, dtype=tf.float32)]: on-value 1,
    off-value 0; an index outside [0, depth) gives a row of zeros. *)
Definition one_hot_row (index : Z) (depth : nat) : list R :=
  map (fun j => if Z.eqb index (Z.of_nat j) then 1 else 0) (seq 0 depth).

Definition one_hot (indices : tensor) (depth : nat) : ftensor :=
  match indices with
  | IntScalar z => FVector (one_hot_row z depth)
  | IntVector v => FMatrix (map (fun z => one_hot_row z depth) v)
  | IntMatrix m =>
      FCube (map (fun v => map (fun z => one_hot_row z depth) v) m)
  end.

(** [tf.argmax(input, axis=-1)] on one row: the smallest index holding
    the largest value (what the kernels do; the documentation leaves ties
    open); an empty reduction axis is rejected. *)
Fixpoint argmax_from (best_i : nat) (best : R) (i : nat) (xs : list R) : nat :=
  match xs with
  | [] => best_i
  | x :: xs' =>
      if Rlt_dec best x then argmax_from i x (S i) xs'
      else argmax_from best_i best (S i) xs'
  end.

Definition argmax_row (xs : list R) : option Z :=
  match xs with
  | [] => None
  | x :: xs' => Some (Z.of_nat (argmax_from 0 x 1 xs'))
  end.

Definition argmax (input : list (list R)) : option (list Z) :=
  mapM argmax_row input.

(** [tf.squeeze] of a rank-1 tensor: shape [1] becomes a scalar, any
    other shape has no dimension of size 1 and is kept. *)
Definition squeeze (v : list Z) : tensor :=
  match v with
  | [z] => IntScalar z
  | _ => IntVector v
  end.

(** Broadcasting along one axis: the sizes agree, or one of them is 1. *)
Definition broadcast {A B C} (f : A → B → option C)
    (xs : list A) (ys : list B) : option (list C) :=
  if Nat.eqb (length xs) (length ys) then
    mapM (fun p => f p.1 p.2) (zip xs ys)
  else
    match xs, ys with
    | [x], _ => mapM (f x) ys
    | _, [y] => mapM (fun x => f x y) xs
    | _, _ => None
    end.

Definition mul1 (x y : list R) : option (list R) :=
  broadcast (fun a b => Some (a * b)) x y.
Definition mul2 (x y : list (list R)) : option (list (list R)) :=
  broadcast mul1 x y.
Definition mul3 (x y : list (list (list R))) : option (list (list (list R))) :=
  broadcast mul2 x y.

(** [x * y] for a float tensor [x] and a rank-2 tensor [y]; the operand
    of lower rank gets leading axes of size 1. *)
Definition mul (x : ftensor) (y : list (list R)) : option ftensor :=
  match x with
  | FScalar a => FMatrix <$> mul2 [[a]] y
  | FVector v => FMatrix <$> mul2 [v] y
  | FMatrix m => FMatrix <$> mul2 m y
  | FCube c => FCube <$> mul3 c [y]
  end.

(** [tf.reduce_sum(x, axis=-1)]. *)
Definition reduce_sum (x : ftensor) : ftensor :=
  match x with
  | FScalar a => FScalar a
  | FVector v => FScalar (sum_list v)
  | FMatrix m => FVector (map sum_list m)
  | FCube c => FMatrix (map (map sum_list) c)
  end.

(** Unary minus on a tensor. *)
Definition neg (x : ftensor) : ftensor :=
  match x with
  | FScalar a => FScalar (- a)
  | FVector v => FVector (map Ropp v)
  | FMatrix m => FMatrix (map (map Ropp) m)
  | FCube c => FCube (map (map (map Ropp)) c)
  end.

(** [tf.reduce_mean(x)]: the mean of all elements.  The mean of no
    element is [0 / 0] here, where TensorFlow returns NaN: it has no
    meaning in the idealisation. *)
Definition mean (xs : list R) : R := sum_list xs / INR (length xs).

Definition reduce_mean (x : ftensor) : R :=
  match x with
  | FScalar a => a
  | FVector v => mean v
  | FMatrix m => mean (concat m)
  | FCube c => mean (concat (concat c))
  end.

(** The static shape of an integer tensor. *)
Definition shape (t : tensor) : list nat :=
  match t with
  | IntScalar _ => []
  | IntVector v => [length v]
  | IntMatrix m => [length m; match m with r :: _ => length r | [] => 0%nat end]
  end.

(** [remove_squeezable_dimensions(labels, predictions)] of
    [tf.metrics]: when the ranks differ by one and the last axis of the
    tensor of higher rank has size 1, that axis is squeezed. *)
Definition remove_squeezable_dimensions (labels predictions : list nat)
    : list nat * list nat :=
  if Nat.eqb (length predictions) (S (length labels))
     && bool_decide (last predictions = Some 1%nat)
  then (labels, removelast predictions)
  else if Nat.eqb (length labels) (S (length predictions))
          && bool_decide (last labels = Some 1%nat)
  then (removelast labels, predictions)
  else (labels, predictions).

(** [predictions.get_shape().assert_is_compatible_with(labels.get_shape())]
    after the squeezable axis is removed, as [tf.metrics.accuracy] does:
    the two shapes have to be the same. *)
Definition compatible_shapes (labels predictions : tensor) : bool :=
  let '(l, p) := remove_squeezable_dimensions (shape labels)
                   (shape predictions) in
  bool_decide (l = p).

End TensorOps.

(** ** The program *)

(** [tf.estimator.ModeKeys]. *)
Record ModeKeys : Type := {
  TRAIN : string;
  EVAL : string;
  PREDICT : string
}.

(** What [create_model] returns: [(predicted_labels, log_probs)] or
    [(loss, predicted_labels, log_probs)]. *)
Inductive model_output : Type :=
  | LabelsAndProbsTensors (predicted_labels : tensor)
      (log_probs : list (list R))
  | LossLabelsAndProbsTensors (loss : R) (predicted_labels : tensor)
      (log_probs : list (list R)).

(** The pair of tensors a [tf.metrics] function returns, kept symbolic. *)
Record metric_op : Type := {
  metric : metric_kind;
  metric_labels : tensor;
  metric_predictions : tensor
}.

(** The training step [bert.optimization.create_optimizer] returns, kept
    symbolic. *)
Record train_step : Type := {
  step_loss : R;
  step_learning_rate : R;
  step_num_train_steps : Z;
  step_num_warmup_steps : Z;
  step_use_tpu : bool
}.

(** A value of the predictions dict. *)
Inductive prediction : Type :=
  | IntTensor (t : tensor)
  | FloatTensor (t : list (list R)).

(** [tf.estimator.EstimatorSpec]; an argument that is not passed is
    [None]. *)
Module EstimatorSpec.
Record t : Type := {
  mode : string;
  predictions : option (gmap string prediction);
  loss : option R;
  train_op : option train_step;
  eval_metric_ops : option (gmap string metric_op)
}.
End EstimatorSpec.

Section Program.

(** [tf.estimator.ModeKeys] and [defaults.BERT_MODEL_HUB]. *)
Variable keys : ModeKeys.
Variable BERT_MODEL_HUB : string.

(** The pretrained encoder: the ["pooled_output"] entry of what the hub
    module returns on the ["tokens"] signature, and the static size of
    its last axis. *)
Variable pooled_output : tensor → tensor → tensor → list (list R).
Variable pooled_width : nat.

(** The current value of the trainable variables, by name and index. *)
Variable variables : string → list nat → R.

(** The random draw of dropout. *)
Variable draw : nat → nat → bool.

Definition hub_Module (handle : string) (trainable : bool)
    : M (tensor → tensor → tensor → M (list (list R))) :=
  emit (HubModule handle trainable);;
  mret (fun input_ids input_mask segment_ids =>
          emit (HubApply "tokens" true);;
          mret (pooled_output input_ids input_mask segment_ids)).

Definition tf_get_variable_2 (name : string) (d0 d1 : nat)
    : M (list (list R)) :=
  emit (GetVariable name [d0; d1]);;
  mret (map (fun i => map (fun j => variables name [i; j]) (seq 0 d1))
            (seq 0 d0)).

Definition tf_get_variable_1 (name : string) (d0 : nat) : M (list R) :=
  emit (GetVariable name [d0]);;
  mret (map (fun i => variables name [i]) (seq 0 d0)).

Definition tf_nn_dropout (x : list (list R)) (keep_prob : R)
    : M (list (list R)) :=
  emit (Dropout x keep_prob);; mret (dropout draw keep_prob x).

Definition tf_matmul (a b : list (list R)) : M (list (list R)) :=
  emit (MatMul true);; mret (matmul_transpose_b a b).

Definition tf_nn_bias_add (value : list (list R)) (bias : list R)
    : M (list (list R)) :=
  emit BiasAdd;; mret (bias_add value bias).

Definition tf_nn_log_softmax (logits : list (list R)) : M (list (list R)) :=
  emit LogSoftmax;; mret (log_softmax logits).

Definition tf_one_hot (indices : tensor) (depth : nat) : M ftensor :=
  emit (OneHot indices depth);; mret (one_hot indices depth).

(** The error of an empty reduction axis, which TensorFlow reports when
    the graph runs. *)
Definition tf_argmax (input : list (list R)) : M (list Z) :=
  emit ArgMax;;
  match argmax input with
  | Some v => mret v
  | None => raise (InvalidArgumentError "ArgMax")
  end.

Definition tf_squeeze (v : list Z) : M tensor :=
  emit Squeeze;; mret (squeeze v).

(** Shapes that do not broadcast are rejected with [ValueError] when the
    product is built. *)
Definition tf_mul (x : ftensor) (y : list (list R)) : M ftensor :=
  emit Mul;;
  match mul x y with
  | Some p => mret p
  | None => raise (ValueError "Mul")
  end.

Definition tf_reduce_sum (x : ftensor) : M ftensor :=
  emit ReduceSum;; mret (reduce_sum x).

Definition tf_neg (x : ftensor) : M ftensor :=
  emit Neg;; mret (neg x).

Definition tf_reduce_mean (x : ftensor) : M R :=
  emit ReduceMean;; mret (reduce_mean x).

Definition create_model (is_predicting : bool)
    (input_ids input_mask segment_ids labels : tensor) (num_labels : nat)
    : M model_output :=
  emit (CallCreateModel is_predicting);;
  bert_module ← hub_Module BERT_MODEL_HUB true;
  output_layer ← bert_module input_ids input_mask segment_ids;
  let hidden_size := pooled_width in
  output_weights ← tf_get_variable_2 "output_weights" num_labels hidden_size;
  output_bias ← tf_get_variable_1 "output_bias" num_labels;
  emit (VariableScope "loss");;
  dropout_layer ← tf_nn_dropout output_layer (9 / 10)%R;
  logits ← tf_matmul dropout_layer output_weights;
  logits ← tf_nn_bias_add logits output_bias;
  log_probs ← tf_nn_log_softmax logits;
  one_hot_labels ← tf_one_hot labels num_labels;
  indices ← tf_argmax log_probs;
  predicted_labels ← tf_squeeze indices;
  if is_predicting then
    mret (LabelsAndProbsTensors predicted_labels log_probs)
  else
    product ← tf_mul one_hot_labels log_probs;
    sums ← tf_reduce_sum product;
    per_example_loss ← tf_neg sums;
    loss ← tf_reduce_mean per_example_loss;
    mret (LossLabelsAndProbsTensors loss predicted_labels log_probs).

(** A [tf.metrics] (or [tf.contrib.metrics]) call: labels and predictions
    of incompatible shapes are rejected with [ValueError] when the metric
    is built.  The check is the one of [tf.metrics.accuracy], the first
    metric [metric_fn] builds; the later ones get the same arguments. *)
Definition tf_metric (kind : metric_kind) (label_ids predicted_labels : tensor)
    : M metric_op :=
  emit (Metric kind);;
  if compatible_shapes label_ids predicted_labels then
    mret {| metric := kind; metric_labels := label_ids;
            metric_predictions := predicted_labels |}
  else raise (ValueError "incompatible shapes").

Definition metric_fn (label_ids predicted_labels : tensor)
    : M (gmap string metric_op) :=
  emit (CallMetricFn label_ids predicted_labels);;
  accuracy ← tf_metric Accuracy label_ids predicted_labels;
  f1_score ← tf_metric F1Score label_ids predicted_labels;
  auc ← tf_metric Auc label_ids predicted_labels;
  recall ← tf_metric Recall label_ids predicted_labels;
  precision ← tf_metric Precision label_ids predicted_labels;
  true_pos ← tf_metric TruePositives label_ids predicted_labels;
  true_neg ← tf_metric TrueNegatives label_ids predicted_labels;
  false_pos ← tf_metric FalsePositives label_ids predicted_labels;
  false_neg ← tf_metric FalseNegatives label_ids predicted_labels;
  mret (list_to_map [
    ("eval_accuracy", accuracy);
    ("f1_score", f1_score);
    ("auc", auc);
    ("precision", precision);
    ("recall", recall);
    ("true_positives", true_pos);
    ("true_negatives", true_neg);
    ("false_positives", false_pos);
    ("false_negatives", false_neg)
  ]).

Definition create_optimizer (loss learning_rate : R)
    (num_train_steps num_warmup_steps : Z) (use_tpu : bool) : M train_step :=
  emit (CreateOptimizer loss learning_rate num_train_steps num_warmup_steps
          use_tpu);;
  mret {| step_loss := loss; step_learning_rate := learning_rate;
          step_num_train_steps := num_train_steps;
          step_num_warmup_steps := num_warmup_steps;
          step_use_tpu := use_tpu |}.

Definition tf_estimator_EstimatorSpec (mode : string)
    (predictions : option (gmap string prediction)) (loss : option R)
    (train_op : option train_step)
    (eval_metric_ops : option (gmap string metric_op)) : M EstimatorSpec.t :=
  emit (NewEstimatorSpec mode);;
  mret {| EstimatorSpec.mode := mode;
          EstimatorSpec.predictions := predictions;
          EstimatorSpec.loss := loss;
          EstimatorSpec.train_op := train_op;
          EstimatorSpec.eval_metric_ops := eval_metric_ops |}.

(** [model_fn_builder] returns the closure [model_fn]: the function of
    [features], [labels], [mode] and [params] below.  [labels] and
    [params] are not used. *)
Definition model_fn_builder (num_labels : nat) (learning_rate : R)
    (num_train_steps num_warmup_steps : Z)
    : gmap string tensor → list Z → string → gmap string Z
      → M EstimatorSpec.t :=
  fun features labels mode params =>
  input_ids ← getitem features "input_ids";
  input_mask ← getitem features "input_mask";
  segment_ids ← getitem features "segment_ids";
  label_ids ← getitem features "label_ids";
  let is_predicting := String.eqb mode (PREDICT keys) in
  if negb is_predicting then
    out ← create_model is_predicting input_ids input_mask segment_ids
            label_ids num_labels;
    match out with
    | LossLabelsAndProbsTensors loss predicted_labels log_probs =>
        train_op ← create_optimizer loss learning_rate num_train_steps
                     num_warmup_steps false;
        eval_metrics ← metric_fn label_ids predicted_labels;
        if String.eqb mode (TRAIN keys) then
          tf_estimator_EstimatorSpec mode None (Some loss) (Some train_op)
            None
        else
          tf_estimator_EstimatorSpec mode None (Some loss) None
            (Some eval_metrics)
    | LabelsAndProbsTensors _ _ => raise (ValueError "unpack")
    end
  else
    out ← create_model is_predicting input_ids input_mask segment_ids
            label_ids num_labels;
    match out with
    | LabelsAndProbsTensors predicted_labels log_probs =>
        let predictions : gmap string prediction :=
          list_to_map [("probabilities", FloatTensor log_probs);
                       ("labels", IntTensor predicted_labels)] in
        tf_estimator_EstimatorSpec mode (Some predictions) None None None
    | LossLabelsAndProbsTensors _ _ _ => raise (ValueError "unpack")
    end.

(** The value of [output_weights] and [output_bias]. *)
Definition output_weights (num_labels : nat) : list (list R) :=
  map (fun i => map (fun j => variables "output_weights" [i; j])
                    (seq 0 pooled_width)) (seq 0 num_labels).

Definition output_bias (num_labels : nat) : list R :=
  map (fun i => variables "output_bias" [i]) (seq 0 num_labels).

(** The value of [logits] and of [log_probs] (lines 67 to 69), as a
    function of the dropout layer. *)
Definition logits_of (dropout_layer : list (list R)) (num_labels : nat)
    : list (list R) :=
  bias_add (matmul_transpose_b dropout_layer (output_weights num_labels))
    (output_bias num_labels).

Definition log_probs_of (input_ids input_mask segment_ids : tensor)
    (num_labels : nat) : list (list R) :=
  log_softmax
    (logits_of (dropout draw (9 / 10)%R
                  (pooled_output input_ids input_mask segment_ids))
       num_labels).

(** The calls of [create_model] up to and including [tf.argmax]. *)
Definition head_events (is_predicting : bool)
    (input_ids input_mask segment_ids labels : tensor) (num_labels : nat)
    : trace :=
  [ CallCreateModel is_predicting;
    HubModule BERT_MODEL_HUB true;
    HubApply "tokens" true;
    GetVariable "output_weights" [num_labels; pooled_width];
    GetVariable "output_bias" [num_labels];
    VariableScope "loss";
    Dropout (pooled_output input_ids input_mask segment_ids) (9 / 10)%R;
    MatMul true;
    BiasAdd;
    LogSoftmax;
    OneHot labels num_labels;
    ArgMax ].

(** The dict [metric_fn] builds and the calls it makes. *)
Definition metric_ops (label_ids predicted_labels : tensor)
    : gmap string metric_op :=
  let op kind := {| metric := kind; metric_labels := label_ids;
                    metric_predictions := predicted_labels |} in
  list_to_map [
    ("eval_accuracy", op Accuracy);
    ("f1_score", op F1Score);
    ("auc", op Auc);
    ("precision", op Precision);
    ("recall", op Recall);
    ("true_positives", op TruePositives);
    ("true_negatives", op TrueNegatives);
    ("false_positives", op FalsePositives);
    ("false_negatives", op FalseNegatives)
  ].

Definition metric_fn_events (label_ids predicted_labels : tensor) : trace :=
  [ CallMetricFn label_ids predicted_labels;
    Metric Accuracy; Metric F1Score; Metric Auc; Metric Recall;
    Metric Precision; Metric TruePositives; Metric TrueNegatives;
    Metric FalsePositives; Metric FalseNegatives ].

End Program.

(** ** Observations on outputs and traces *)

Definition out_log_probs (out : model_output) : list (list R) :=
  match out with
  | LabelsAndProbsTensors _ log_probs => log_probs
  | LossLabelsAndProbsTensors _ _ log_probs => log_probs
  end.

Definition out_predicted_labels (out : model_output) : tensor :=
  match out with
  | LabelsAndProbsTensors predicted_labels _ => predicted_labels
  | LossLabelsAndProbsTensors _ predicted_labels _ => predicted_labels
  end.

Definition out_loss (out : model_output) : option R :=
  match out with
  | LabelsAndProbsTensors _ _ => None
  | LossLabelsAndProbsTensors loss _ _ => Some loss
  end.

(** The number of times [metric_fn] was entered. *)
Fixpoint metric_fn_calls (t : trace) : nat :=
  match t with
  | [] => 0
  | CallMetricFn _ _ :: t' => S (metric_fn_calls t')
  | _ :: t' => metric_fn_calls t'
  end.

(** The number of [tf.metrics] operations that were built. *)
Fixpoint metrics_built (t : trace) : nat :=
  match t with
  | [] => 0
  | Metric _ :: t' => S (metrics_built t')
  | _ :: t' => metrics_built t'
  end.

(** The arguments of the calls of [create_optimizer], in order. *)
Fixpoint optimizer_calls (t : trace) : list train_step :=
  match t with
  | [] => []
  | CreateOptimizer loss learning_rate num_train_steps num_warmup_steps
      use_tpu :: t' =>
      {| step_loss := loss; step_learning_rate := learning_rate;
         step_num_train_steps := num_train_steps;
         step_num_warmup_steps := num_warmup_steps;
         step_use_tpu := use_tpu |} :: optimizer_calls t'
  | _ :: t' => optimizer_calls t'
  end.

(** The arguments of the calls of [tf.nn.dropout], in order. *)
Fixpoint dropout_calls (t : trace) : list (list (list R) * R) :=
  match t with
  | [] => []
  | Dropout x keep_prob :: t' => (x, keep_prob) :: dropout_calls t'
  | _ :: t' => dropout_calls t'
  end.

(** The arguments of the calls of [tf.one_hot], in order. *)
Fixpoint one_hot_calls (t : trace) : list (tensor * nat) :=
  match t with
  | [] => []
  | OneHot indices depth :: t' => (indices, depth) :: one_hot_calls t'
  | _ :: t' => one_hot_calls t'
  end.

(** ** The specification's notions *)

Section SpecNotions.
Local Open Scope R_scope.

(** One-hot encoding: a single 1 at the label's index, 0 elsewhere. *)
Definition spec_one_hot (label : Z) (depth : nat) : list R :=
  if (0 <=? label)%Z then <[Z.to_nat label := 1]> (replicate depth 0)
  else replicate depth 0.

(** The loss of one example: minus the sum over the label axis of
    one-hot times log-probability. *)
Fixpoint spec_weighted_sum (one_hot log_probs : list R) : R :=
  match one_hot, log_probs with
  | h :: one_hot', p :: log_probs' =>
      h * p + spec_weighted_sum one_hot' log_probs'
  | _, _ => 0
  end.

Definition spec_example_loss (depth : nat) (label : Z) (log_probs : list R)
    : R :=
  - spec_weighted_sum (spec_one_hot label depth) log_probs.

(** The mean over the batch of the losses of its examples. *)
Definition spec_batch_loss (depth : nat) (labels : list Z)
    (log_probs : list (list R)) : R :=
  fold_left Rplus (zip_with (spec_example_loss depth) labels log_probs) 0
  / INR (length labels).

(** [k] is the index of the maximum of [row]: the first position that
    holds its largest value. *)
Definition index_of_maximum (row : list R) (k : Z) : Prop :=
  ∃ top : R,
    (0 <= k)%Z ∧ row !! Z.to_nat k = Some top
    ∧ (∀ j v, row !! j = Some v → v <= top)
    ∧ (∀ j v, (j < Z.to_nat k)%nat → row !! j = Some v → v < top).

(** The probability a row of log-probabilities gives to a label. *)
Definition probability_of (log_probs : list R) (label : Z) : R :=
  match log_probs !! Z.to_nat label with
  | Some p => exp p
  | None => 0
  end.

End SpecNotions.

(** The three modes are different strings. *)
Definition distinct_modes (keys : ModeKeys) : Prop :=
  TRAIN keys ≠ EVAL keys ∧ TRAIN keys ≠ PREDICT keys
  ∧ EVAL keys ≠ PREDICT keys.

(** A features mapping with the four keys of the interface. *)
Definition has_features (features : gmap string tensor)
    (input_ids input_mask segment_ids label_ids : tensor) : Prop :=
  features !! "input_ids" = Some input_ids
  ∧ features !! "input_mask" = Some input_mask
  ∧ features !! "segment_ids" = Some segment_ids
  ∧ features !! "label_ids" = Some label_ids.

(** The bundles of the three modes. *)
Definition predict_spec (mode : string) (predicted_labels : tensor)
    (log_probs : list (list R)) : EstimatorSpec.t :=
  {| EstimatorSpec.mode := mode;
     EstimatorSpec.predictions :=
       Some (list_to_map [("probabilities", FloatTensor log_probs);
                          ("labels", IntTensor predicted_labels)]);
     EstimatorSpec.loss := None;
     EstimatorSpec.train_op := None;
     EstimatorSpec.eval_metric_ops := None |}.

Definition training_step (loss learning_rate : R)
    (num_train_steps num_warmup_steps : Z) : train_step :=
  {| step_loss := loss; step_learning_rate := learning_rate;
     step_num_train_steps := num_train_steps;
     step_num_warmup_steps := num_warmup_steps;
     step_use_tpu := false |}.

Definition train_spec (mode : string) (loss : R) (step : train_step)
    : EstimatorSpec.t :=
  {| EstimatorSpec.mode := mode;
     EstimatorSpec.predictions := None;
     EstimatorSpec.loss := Some loss;
     EstimatorSpec.train_op := Some step;
     EstimatorSpec.eval_metric_ops := None |}.

Definition eval_spec (mode : string) (loss : R)
    (metrics : gmap string metric_op) : EstimatorSpec.t :=
  {| EstimatorSpec.mode := mode;
     EstimatorSpec.predictions := None;
     EstimatorSpec.loss := Some loss;
     EstimatorSpec.train_op := None;
     EstimatorSpec.eval_metric_ops := Some metrics |}.

(** The structure of the output bundle in each mode. *)
Definition prediction_bundle (spec : EstimatorSpec.t) : Prop :=
  ∃ preds log_probs predicted_labels,
    EstimatorSpec.predictions spec = Some preds
    ∧ dom preds = {[ "probabilities"; "labels" ]}
    ∧ preds !! "probabilities" = Some (FloatTensor log_probs)
    ∧ preds !! "labels" = Some (IntTensor predicted_labels)
    ∧ EstimatorSpec.loss spec = None
    ∧ EstimatorSpec.train_op spec = None
    ∧ EstimatorSpec.eval_metric_ops spec = None.

Definition train_bundle (spec : EstimatorSpec.t) : Prop :=
  ∃ loss step,
    EstimatorSpec.loss spec = Some loss
    ∧ EstimatorSpec.train_op spec = Some step
    ∧ EstimatorSpec.eval_metric_ops spec = None
    ∧ EstimatorSpec.predictions spec = None.

Definition eval_bundle (spec : EstimatorSpec.t) : Prop :=
  ∃ loss metrics,
    EstimatorSpec.loss spec = Some loss
    ∧ EstimatorSpec.eval_metric_ops spec = Some metrics
    ∧ EstimatorSpec.train_op spec = None
    ∧ EstimatorSpec.predictions spec = None.

Definition mode_bundle (keys : ModeKeys) (mode : string)
    (spec : EstimatorSpec.t) : Prop :=
  (mode = PREDICT keys → prediction_bundle spec)
  ∧ (mode = TRAIN keys → train_bundle spec)
  ∧ (mode = EVAL keys → eval_bundle spec).

(** The nine metrics of the specification, under the keys the program
    gives them. *)
Definition spec_metric_keys : list (string * metric_kind) :=
  [ ("eval_accuracy", Accuracy); ("f1_score", F1Score); ("auc", Auc);
    ("precision", Precision); ("recall", Recall);
    ("true_positives", TruePositives); ("true_negatives", TrueNegatives);
    ("false_positives", FalsePositives);
    ("false_negatives", FalseNegatives) ].

(** ** A small concrete batch *)

Module Sample.

Definition keys : ModeKeys :=
  {| TRAIN := "train"; EVAL := "eval"; PREDICT := "infer" |}.

Definition BERT_MODEL_HUB : string := "bert_uncased_L-12_H-768_A-12".

(** Two examples, encoded to width 2. *)
Definition pooled_output (input_ids input_mask segment_ids : tensor)
    : list (list R) :=
  [[1; 0]; [0; 1]]%R.

Definition pooled_width : nat := 2.

Definition variables (name : string) (index : list nat) : R := 0%R.

Definition draw (i j : nat) : bool := true.

Definition input_ids : tensor :=
  IntMatrix [[101; 2023; 102]; [101; 2919; 102]]%Z.
Definition input_mask : tensor := IntMatrix [[1; 1; 1]; [1; 1; 1]]%Z.
Definition segment_ids : tensor := IntMatrix [[0; 0; 0]; [0; 0; 0]]%Z.
Definition label_ids : tensor := IntVector [1; 0]%Z.

Definition features : gmap string tensor :=
  list_to_map [("input_ids", input_ids); ("input_mask", input_mask);
               ("segment_ids", segment_ids); ("label_ids", label_ids)].

(** The same mapping without its labels. *)
Definition features_without_labels : gmap string tensor :=
  delete "label_ids" features.

Definition create_model :=
  create_model BERT_MODEL_HUB pooled_output pooled_width variables draw.

Definition model_fn :=
  model_fn_builder keys BERT_MODEL_HUB pooled_output pooled_width variables
    draw 2 (2 / 100000)%R 100 10.

End Sample.

(** ** Further observations *)

(** The keys [model_fn] reads from [features], in the order it reads
    them (lines 131 to 134). *)
Definition feature_keys : list string :=
  ["input_ids"; "input_mask"; "segment_ids"; "label_ids"].

(** The number of operations of the loss (lines 82 and 83) that were
    built. *)
Fixpoint loss_ops (t : trace) : nat :=
  match t with
  | [] => 0
  | (Mul | ReduceSum | Neg | ReduceMean) :: t' => S (loss_ops t')
  | _ :: t' => loss_ops t'
  end.

(** The modes of the [EstimatorSpec]s that were constructed, in order. *)
Fixpoint specs_built (t : trace) : list string :=
  match t with
  | [] => []
  | NewEstimatorSpec mode :: t' => mode :: specs_built t'
  | _ :: t' => specs_built t'
  end.

(** Minus the log-probability a row gives to a label; 0 for a label
    outside [0, depth). *)
Definition negative_log_likelihood (depth : nat) (label : Z) (row : list R)
    : R :=
  if decide (0 <= label < Z.of_nat depth)%Z
  then (- nth (Z.to_nat label) row 0)%R
  else 0%R.

(** ** Further concrete inputs *)

Module Edge.

Definition features_without_mask : gmap string tensor :=
  delete "input_mask" Sample.features.

Definition features_with_guid : gmap string tensor :=
  <["guid" := IntVector [7; 8]%Z]> Sample.features.

(** Labels of another shape than the batch. *)
Definition features_dummy_labels : gmap string tensor :=
  <["label_ids" := IntMatrix [[5]]%Z]> Sample.features.

Definition features_one_label : gmap string tensor :=
  <["label_ids" := IntVector [1]%Z]> Sample.features.

(** An encoder that returns zeros, and variables that are not zero. *)
Definition zero_pooled_output (input_ids input_mask segment_ids : tensor)
    : list (list R) :=
  [[0; 0; 0]; [0; 0; 0]]%R.

Definition variables (name : string) (index : list nat) : R :=
  match index with
  | [i; j] => INR (i + 2 * j)
  | [i] => INR i
  | _ => 0%R
  end.

Definition draw (i j : nat) : bool := Nat.even (i + j).

(** An encoder that returns no example. *)
Definition empty_pooled_output (input_ids input_mask segment_ids : tensor)
    : list (list R) :=
  [].

End Edge.

(** ** The operations on small inputs *)

Example one_hot_row_in_range : one_hot_row 1 3 = [0; 1; 0]%R.
Proof. reflexivity. Qed.

Example one_hot_row_out_of_range : one_hot_row 5 3 = [0; 0; 0]%R.
Proof. reflexivity. Qed.

Example one_hot_row_negative : one_hot_row (-1) 2 = [0; 0]%R.
Proof. reflexivity. Qed.

Example spec_one_hot_in_range : spec_one_hot 1 3 = [0; 1; 0]%R.
Proof. reflexivity. Qed.

Example squeeze_one_example : squeeze [1%Z] = IntScalar 1.
Proof. reflexivity. Qed.

Example squeeze_two_examples : squeeze [1; 0]%Z = IntVector [1; 0]%Z.
Proof. reflexivity. Qed.

Example squeeze_empty_batch : squeeze [] = IntVector [].
Proof. reflexivity. Qed.

Example argmax_row_empty : argmax_row [] = None.
Proof. reflexivity. Qed.

Example argmax_row_second : argmax_row [1; 3; 2]%R = Some 1%Z.
Proof.
  simpl. destruct (Rlt_dec 1 3) as [_|H]; [|exfalso; lra].
  destruct (Rlt_dec 3 2) as [H|_]; [exfalso; lra | reflexivity].
Qed.

Example argmax_row_tie : argmax_row [2; 2]%R = Some 0%Z.
Proof.
  simpl. destruct (Rlt_dec 2 2) as [H|_]; [exfalso; lra | reflexivity].
Qed.

Example mul_shape_mismatch :
  mul (FMatrix [[1; 0]; [0; 1]; [1; 0]]%R) [[0; 0]; [0; 0]]%R = None.
Proof. reflexivity. Qed.

Example mul_broadcast_one_label :
  mul (FMatrix [[1; 0]]%R) [[2; 3]; [4; 5]]%R
  = Some (FMatrix [[1 * 2; 0 * 3]; [1 * 4; 0 * 5]]%R).
Proof. reflexivity. Qed.

Example shapes_one_label_per_example :
  compatible_shapes (IntVector [1; 0]%Z) (IntVector [0; 0]%Z) = true.
Proof. reflexivity. Qed.

Example shapes_batch_of_one :
  compatible_shapes (IntVector [1]%Z) (squeeze [0%Z]) = true.
Proof. reflexivity. Qed.

Example shapes_column_of_labels :
  compatible_shapes (IntMatrix [[1]; [0]]%Z) (IntVector [0; 0]%Z) = true.
Proof. reflexivity. Qed.

Example shapes_three_against_two :
  compatible_shapes (IntVector [1; 0; 1]%Z) (IntVector [0; 0]%Z) = false.
Proof. reflexivity. Qed.

Example shapes_one_against_two :
  compatible_shapes (IntVector [1]%Z) (IntVector [0; 0]%Z) = false.
Proof. reflexivity. Qed.

Example sample_missing_labels :
  Sample.model_fn Sample.features_without_labels [] "train" ∅
  = (inl (KeyError "label_ids"), []).
Proof. reflexivity. Qed.

(** ** Facts about the arithmetic *)

Section TensorFacts.
Local Open Scope R_scope.

Lemma fold_left_Rplus (xs : list R) (a : R) :
  fold_left Rplus xs a = a + sum_list xs.
Proof.
  revert a. induction xs as [|x xs IH]; intros a; simpl; [lra|].
  rewrite IH. lra.
Qed.

Lemma mean_nonneg (xs : list R) :
  xs ≠ [] → Forall (fun x => 0 <= x) xs → 0 <= mean xs.
Proof.
  intros Hne Hall. unfold mean, Rdiv. apply Rmult_le_pos.
  - induction Hall as [|x xs Hx Hall IH]; simpl; [lra|].
    destruct xs as [|y ys]; [simpl; lra|].
    assert (y :: ys ≠ []) as Hne' by done. specialize (IH Hne'). lra.
  - left. apply Rinv_0_lt_compat, lt_0_INR.
    destruct xs; [done | simpl; lia].
Qed.

(** *** Log-softmax *)

Lemma exp_sum_pos (xs : list R) : xs ≠ [] → 0 < sum_list (map exp xs).
Proof.
  assert (∀ ys, 0 <= sum_list (map exp ys)) as Hnn.
  { induction ys as [|y ys IH]; simpl; [lra|].
    pose proof (exp_pos y). lra. }
  destruct xs as [|x xs]; [done|]. intros _. simpl.
  pose proof (exp_pos x). pose proof (Hnn xs). lra.
Qed.

Lemma exp_le_sum (xs : list R) (j : nat) (x : R) :
  xs !! j = Some x → exp x <= sum_list (map exp xs).
Proof.
  assert (∀ ys, 0 <= sum_list (map exp ys)) as Hnn.
  { induction ys as [|y ys IH]; simpl; [lra|].
    pose proof (exp_pos y). lra. }
  revert j. induction xs as [|y xs IH]; intros [|j] Hj; simpl in *;
    try discriminate.
  - injection Hj as ->. pose proof (Hnn xs). lra.
  - pose proof (IH j Hj). pose proof (exp_pos y). lra.
Qed.

Lemma sum_exp_shift (xs : list R) (s : R) :
  sum_list (map exp (map (fun x => x - s) xs))
  = sum_list (map exp xs) * exp (- s).
Proof.
  induction xs as [|x xs IH]; simpl; [lra|].
  rewrite IH. unfold Rminus. rewrite exp_plus. lra.
Qed.

Lemma log_softmax_row_length (logits : list R) :
  length (log_softmax_row logits) = length logits.
Proof. unfold log_softmax_row. by rewrite length_map. Qed.

Lemma log_softmax_row_normalised (logits : list R) :
  logits ≠ [] → sum_list (map exp (log_softmax_row logits)) = 1.
Proof.
  intros Hne. unfold log_softmax_row. rewrite sum_exp_shift.
  pose proof (exp_sum_pos logits Hne) as Hpos.
  rewrite exp_Ropp, exp_ln by exact Hpos.
  apply Rinv_r. lra.
Qed.

Lemma log_softmax_row_nonpos (logits : list R) (j : nat) (p : R) :
  log_softmax_row logits !! j = Some p → p <= 0.
Proof.
  unfold log_softmax_row. rewrite list_lookup_fmap.
  destruct (logits !! j) as [x|] eqn:Hx; [|discriminate].
  simpl. intros [= <-].
  assert (logits ≠ []) as Hne by (intros ->; discriminate).
  pose proof (exp_sum_pos logits Hne) as Hpos.
  pose proof (exp_le_sum logits j x Hx) as Hle.
  assert (x <= ln (sum_list (map exp logits))); [|lra].
  rewrite <- (ln_exp x) at 1.
  destruct Hle as [Hlt | Heq].
  - left. apply ln_increasing; [apply exp_pos | exact Hlt].
  - right. by rewrite Heq.
Qed.

(** *** One-hot encoding and the loss of one example *)

Lemma one_hot_row_lookup (index : Z) (depth j : nat) :
  one_hot_row index depth !! j
  = if decide (j < depth)%nat
    then Some (if (index =? Z.of_nat j)%Z then 1 else 0)
    else None.
Proof.
  unfold one_hot_row. rewrite list_lookup_fmap.
  destruct (decide (j < depth)%nat) as [Hlt|Hge].
  - by rewrite lookup_seq_lt.
  - rewrite lookup_seq_ge; [done | lia].
Qed.

(** The one-hot rows the program builds are the specification's. *)
Lemma one_hot_row_spec (index : Z) (depth : nat) :
  one_hot_row index depth = spec_one_hot index depth.
Proof.
  apply list_eq. intros j. rewrite one_hot_row_lookup. unfold spec_one_hot.
  destruct (Z.leb_spec 0 index) as [Hnn|Hneg].
  - destruct (decide (j = Z.to_nat index)) as [->|Hne].
    + destruct (decide (Z.to_nat index < depth)%nat) as [Hlt|Hge].
      * rewrite list_lookup_insert_eq by (rewrite length_replicate; lia).
        rewrite Z2Nat.id by lia. by rewrite Z.eqb_refl.
      * rewrite list_insert_ge by (rewrite length_replicate; lia).
        symmetry. apply lookup_replicate_None. lia.
    + rewrite list_lookup_insert_ne by done.
      destruct (Z.eqb_spec index (Z.of_nat j)) as [Heq|_]; [lia|].
      destruct (decide (j < depth)%nat) as [Hlt|Hge].
      * symmetry. by apply lookup_replicate_2.
      * symmetry. apply lookup_replicate_None. lia.
  - destruct (Z.eqb_spec index (Z.of_nat j)) as [Heq|_]; [lia|].
    destruct (decide (j < depth)%nat) as [Hlt|Hge].
    + symmetry. by apply lookup_replicate_2.
    + symmetry. apply lookup_replicate_None. lia.
Qed.

Lemma spec_weighted_sum_zip (h p : list R) :
  sum_list (zip_with Rmult h p) = spec_weighted_sum h p.
Proof.
  revert p. induction h as [|a h IH]; intros [|b p]; simpl; try done.
  by rewrite IH.
Qed.

Lemma spec_weighted_sum_zeros (depth : nat) (p : list R) :
  spec_weighted_sum (replicate depth 0) p = 0.
Proof.
  revert p. induction depth as [|n IH]; intros [|b p]; simpl; try done.
  rewrite IH. lra.
Qed.

Lemma spec_weighted_sum_pick (depth k : nat) (p : list R) :
  spec_weighted_sum (<[k := 1]> (replicate depth 0)) p
  = match p !! k with
    | Some x => if decide (k < depth)%nat then x else 0
    | None => 0
    end.
Proof.
  revert k p. induction depth as [|n IH]; intros k p.
  - simpl. destruct (p !! k); [|done].
    destruct (decide (k < 0)%nat); [lia | done].
  - destruct p as [|b p]; [by destruct k|].
    destruct k as [|k]; simpl.
    + rewrite spec_weighted_sum_zeros. lra.
    + rewrite IH. destruct (p !! k); [|lra].
      destruct (decide (k < n)%nat), (decide (S k < S n)%nat);
        try lia; lra.
Qed.

Lemma spec_example_loss_value (depth : nat) (label : Z) (row : list R) :
  spec_example_loss depth label row
  = if decide (0 <= label < Z.of_nat depth)%Z
    then match row !! Z.to_nat label with Some p => - p | None => 0 end
    else 0.
Proof.
  unfold spec_example_loss, spec_one_hot.
  destruct (Z.leb_spec 0 label) as [Hnn|Hneg].
  - rewrite spec_weighted_sum_pick.
    destruct (decide (0 <= label < Z.of_nat depth)%Z) as [Hin|Hout].
    + destruct (row !! Z.to_nat label); [|lra].
      destruct (decide (Z.to_nat label < depth)%nat); [done | lia].
    + destruct (row !! Z.to_nat label); [|lra].
      destruct (decide (Z.to_nat label < depth)%nat); [lia | lra].
  - rewrite spec_weighted_sum_zeros.
    destruct (decide (0 <= label < Z.of_nat depth)%Z); [lia | lra].
Qed.

(** *** Argmax *)

Lemma argmax_from_spec (xs pre : list R) (best_i : nat) (best : R) :
  pre !! best_i = Some best →
  (∀ j v, pre !! j = Some v → v <= best) →
  (∀ j v, (j < best_i)%nat → pre !! j = Some v → v < best) →
  ∃ top : R,
    (pre ++ xs) !! argmax_from best_i best (length pre) xs = Some top
    ∧ (∀ j v, (pre ++ xs) !! j = Some v → v <= top)
    ∧ (∀ j v, (j < argmax_from best_i best (length pre) xs)%nat →
              (pre ++ xs) !! j = Some v → v < top).
Proof.
  revert pre best_i best.
  induction xs as [|x xs IH]; intros pre best_i best Hbest Hmax Hfirst.
  - simpl. rewrite app_nil_r. eauto.
  - simpl. rewrite (cons_middle x pre xs), app_assoc.
    replace (S (length pre)) with (length (pre ++ [x]))
      by (rewrite length_app; simpl; lia).
    destruct (Rlt_dec best x) as [Hlt|Hge].
    + apply IH.
      * by apply list_lookup_middle.
      * intros j v Hj. apply lookup_app_Some in Hj as [Hj|[_ Hj]].
        -- left. eapply Rle_lt_trans; [by eapply Hmax | done].
        -- apply list_lookup_singleton_Some in Hj as [_ <-]. lra.
      * intros j v Hlen Hj. rewrite lookup_app_l in Hj by done.
        eapply Rle_lt_trans; [by eapply Hmax | done].
    + apply IH.
      * rewrite lookup_app_l; [done | by eapply lookup_lt_Some].
      * intros j v Hj. apply lookup_app_Some in Hj as [Hj|[_ Hj]].
        -- by eapply Hmax.
        -- apply list_lookup_singleton_Some in Hj as [_ <-]. lra.
      * intros j v Hlen Hj.
        assert (best_i < length pre)%nat by by eapply lookup_lt_Some.
        rewrite lookup_app_l in Hj by lia. by eapply Hfirst.
Qed.

Lemma argmax_row_spec (row : list R) (k : Z) :
  argmax_row row = Some k → index_of_maximum row k.
Proof.
  destruct row as [|x xs]; [done|]. simpl. intros [= <-].
  destruct (argmax_from_spec xs [x] 0 x) as (top & Htop & Hmax & Hfirst).
  - done.
  - intros [|j] v Hj; simpl in Hj; [|done]. injection Hj as ->. lra.
  - intros j v Hj. lia.
  - exists top. rewrite Nat2Z.id. split_and!; [lia | done..].
Qed.

Lemma argmax_spec (input : list (list R)) (indices : list Z) :
  argmax input = Some indices → Forall2 index_of_maximum input indices.
Proof.
  unfold argmax. rewrite mapM_Some. intros H.
  eapply Forall2_impl; [exact H|]. intros row k. apply argmax_row_spec.
Qed.

Lemma argmax_total (input : list (list R)) :
  Forall (fun row => row ≠ []) input → is_Some (argmax input).
Proof.
  intros Hne. unfold argmax. apply mapM_is_Some.
  eapply Forall_impl; [exact Hne|]. intros [|x xs] Hx; [done|].
  simpl. eauto.
Qed.

(** An index of the maximum is unique. *)
Lemma index_of_maximum_unique (row : list R) (k k' : Z) :
  index_of_maximum row k → index_of_maximum row k' → k = k'.
Proof.
  intros (top & Hk & Htop & Hmax & Hfirst)
         (top' & Hk' & Htop' & Hmax' & Hfirst').
  destruct (Nat.lt_trichotomy (Z.to_nat k) (Z.to_nat k')) as [Hlt|[Heq|Hgt]].
  - pose proof (Hfirst' _ _ Hlt Htop). pose proof (Hmax' _ _ Htop).
    pose proof (Hmax _ _ Htop'). lra.
  - lia.
  - pose proof (Hfirst _ _ Hgt Htop'). pose proof (Hmax _ _ Htop').
    pose proof (Hmax' _ _ Htop). lra.
Qed.

(** *** Broadcasting and the batch loss *)

Lemma broadcast_same_length {A B C} (f : A → B → option C) (g : A → B → C)
    (xs : list A) (ys : list B) :
  Forall2 (fun x y => f x y = Some (g x y)) xs ys →
  broadcast f xs ys = Some (zip_with g xs ys).
Proof.
  intros H. unfold broadcast.
  rewrite (Forall2_length _ _ _ H), Nat.eqb_refl.
  apply mapM_Some. induction H; simpl; constructor; done.
Qed.

Lemma mul1_same_length (x y : list R) :
  length x = length y → mul1 x y = Some (zip_with Rmult x y).
Proof.
  intros Hlen. apply broadcast_same_length.
  revert y Hlen. induction x as [|a x IH]; intros [|b y] Hlen;
    simpl in Hlen; try discriminate; constructor; [done|].
  apply IH. lia.
Qed.

Lemma mul2_same_shape (x y : list (list R)) :
  Forall2 (fun r s => length r = length s) x y →
  mul2 x y = Some (zip_with (zip_with Rmult) x y).
Proof.
  intros H. apply broadcast_same_length.
  eapply Forall2_impl; [exact H|]. intros r s. apply mul1_same_length.
Qed.

Lemma example_losses_spec (depth : nat) (labels : list Z)
    (log_probs : list (list R)) :
  map Ropp (map sum_list
    (zip_with (zip_with Rmult) (map (fun z => one_hot_row z depth) labels)
       log_probs))
  = zip_with (spec_example_loss depth) labels log_probs.
Proof.
  revert log_probs. induction labels as [|l labels IH]; intros [|row rows];
    simpl; try done.
  rewrite IH. f_equal. unfold spec_example_loss.
  by rewrite spec_weighted_sum_zip, one_hot_row_spec.
Qed.

(** On a labels vector with one label per row, lines 72, 82 and 83
    compute the specification's batch loss. *)
Lemma loss_refines_spec (depth : nat) (labels : list Z)
    (log_probs : list (list R)) :
  length labels = length log_probs →
  Forall (fun row => length row = depth) log_probs →
  ∃ product,
    mul (one_hot (IntVector labels) depth) log_probs = Some product
    ∧ reduce_mean (neg (reduce_sum product))
      = spec_batch_loss depth labels log_probs.
Proof.
  intros Hlen Hrows. eexists. split.
  - simpl. rewrite mul2_same_shape; [done|].
    apply Forall2_same_length_lookup. split.
    + by rewrite length_map.
    + intros i r s Hr Hs. rewrite list_lookup_fmap in Hr.
      destruct (labels !! i) as [l|]; [|done]. injection Hr as <-.
      unfold one_hot_row. rewrite length_map, length_seq.
      symmetry. eapply Forall_lookup_1 in Hrows; [exact Hrows | exact Hs].
  - simpl. rewrite example_losses_spec. unfold mean, spec_batch_loss.
    rewrite fold_left_Rplus, length_zip_with, <- Hlen, Nat.min_id. lra.
Qed.

Lemma mean_lt (xs : list R) (hi : R) :
  xs ≠ [] → Forall (fun x => x < hi) xs → mean xs < hi.
Proof.
  intros Hne Hall. unfold mean.
  assert (0 < INR (length xs)) as Hpos.
  { apply lt_0_INR. destruct xs; [done | simpl; lia]. }
  assert (sum_list xs < hi * INR (length xs)) as Hsum.
  { clear Hpos. induction Hall as [|x xs Hx Hall IH]; [done|].
    change (length (x :: xs)) with (S (length xs)). rewrite S_INR. simpl.
    destruct xs as [|y ys].
    - simpl. lra.
    - assert (y :: ys ≠ []) as Hne' by done. specialize (IH Hne'). lra. }
  pose proof (Rinv_0_lt_compat _ Hpos) as Hinv.
  assert (INR (length xs) * / INR (length xs) = 1) as Hone
    by (apply Rinv_r; lra).
  unfold Rdiv.
  replace hi with (hi * INR (length xs) * / INR (length xs))
    by (rewrite Rmult_assoc, Hone; lra).
  apply Rmult_lt_compat_r; lra.
Qed.

(** The losses of the examples of a batch whose rows are log-softmax
    rows. *)
Lemma example_loss_nonneg (depth : nat) (label : Z) (logits : list R) :
  0 <= spec_example_loss depth label (log_softmax_row logits).
Proof.
  rewrite spec_example_loss_value.
  destruct (decide _); [|lra].
  destruct (log_softmax_row logits !! Z.to_nat label) as [p|] eqn:Hp; [|lra].
  apply log_softmax_row_nonpos in Hp. lra.
Qed.

Lemma example_loss_small (depth : nat) (label : Z) (row : list R) (eps : R) :
  0 < eps → exp (- eps) < probability_of row label →
  spec_example_loss depth label row < eps.
Proof.
  unfold probability_of. intros Heps Hp. rewrite spec_example_loss_value.
  destruct (decide _) as [_|Hout]; [|done].
  destruct (row !! Z.to_nat label) as [p|].
  - apply exp_lt_inv in Hp. lra.
  - pose proof (exp_pos (- eps)). lra.
Qed.

Lemma spec_batch_loss_mean (depth : nat) (labels : list Z)
    (log_probs : list (list R)) :
  length labels = length log_probs →
  spec_batch_loss depth labels log_probs
  = mean (zip_with (spec_example_loss depth) labels log_probs).
Proof.
  intros Hlen. unfold spec_batch_loss, mean.
  rewrite fold_left_Rplus, length_zip_with, <- Hlen, Nat.min_id. lra.
Qed.

Lemma batch_loss_nonneg (depth : nat) (labels : list Z)
    (logits : list (list R)) :
  labels ≠ [] → length labels = length logits →
  0 <= spec_batch_loss depth labels (log_softmax logits).
Proof.
  intros Hne Hlen. unfold log_softmax.
  rewrite spec_batch_loss_mean by by rewrite length_map.
  apply mean_nonneg.
  - destruct labels, logits; simpl in *; done.
  - clear Hne. revert logits Hlen.
    induction labels as [|l labels IH]; intros [|r logits] Hlen;
      simpl in *; try discriminate; constructor.
    + apply example_loss_nonneg.
    + apply IH. lia.
Qed.

Lemma batch_loss_small (depth : nat) (labels : list Z)
    (log_probs : list (list R)) (eps : R) :
  0 < eps → labels ≠ [] →
  Forall2 (fun label row => exp (- eps) < probability_of row label)
    labels log_probs →
  spec_batch_loss depth labels log_probs < eps.
Proof.
  intros Heps Hne Hall.
  rewrite spec_batch_loss_mean by by eapply Forall2_length.
  apply mean_lt.
  - destruct Hall; simpl; done.
  - clear Hne. induction Hall as [|l row labels rows Hp _ IH]; simpl;
      constructor; [|exact IH].
    by apply example_loss_small.
Qed.

End TensorFacts.

(** ** How the program runs *)

Section Runs.

Variable keys : ModeKeys.
Variable BERT_MODEL_HUB : string.
Variable pooled_output : tensor → tensor → tensor → list (list R).
Variable pooled_width : nat.
Variable variables : string → list nat → R.
Variable draw : nat → nat → bool.

Abbreviation create_model' :=
  (create_model BERT_MODEL_HUB pooled_output pooled_width variables draw).
Abbreviation model_fn_builder' :=
  (model_fn_builder keys BERT_MODEL_HUB pooled_output pooled_width variables
     draw).
Abbreviation log_probs_of' :=
  (log_probs_of pooled_output pooled_width variables draw).
Abbreviation head_events' :=
  (head_events BERT_MODEL_HUB pooled_output pooled_width).

Lemma log_probs_of_length input_ids input_mask segment_ids num_labels :
  length (log_probs_of' input_ids input_mask segment_ids num_labels)
  = length (pooled_output input_ids input_mask segment_ids).
Proof.
  unfold log_probs_of, log_softmax, logits_of, bias_add, matmul_transpose_b,
    dropout.
  by rewrite !length_map, length_imap.
Qed.

Lemma log_probs_of_rows input_ids input_mask segment_ids num_labels :
  Forall (fun row => length row = num_labels)
    (log_probs_of' input_ids input_mask segment_ids num_labels).
Proof.
  unfold log_probs_of, log_softmax, logits_of, bias_add, matmul_transpose_b.
  apply Forall_forall. intros row Hrow.
  apply list_elem_of_fmap in Hrow as (r1 & -> & Hrow).
  apply list_elem_of_fmap in Hrow as (r2 & -> & Hrow).
  apply list_elem_of_fmap in Hrow as (r3 & -> & Hrow).
  rewrite log_softmax_row_length, length_zip_with, length_map.
  unfold output_weights, output_bias. rewrite !length_map, !length_seq. lia.
Qed.

Lemma create_model_run is_predicting input_ids input_mask segment_ids labels
    num_labels :
  let log_probs := log_probs_of' input_ids input_mask segment_ids num_labels in
  let head := head_events' is_predicting input_ids input_mask segment_ids
                labels num_labels in
  create_model' is_predicting input_ids input_mask segment_ids labels
    num_labels =
  match argmax log_probs with
  | None => (inl (InvalidArgumentError "ArgMax"), head)
  | Some indices =>
      if is_predicting then
        (inr (LabelsAndProbsTensors (squeeze indices) log_probs),
         head ++ [Squeeze])
      else
        match mul (one_hot labels num_labels) log_probs with
        | None => (inl (ValueError "Mul"), head ++ [Squeeze; Mul])
        | Some product =>
            (inr (LossLabelsAndProbsTensors
                    (reduce_mean (neg (reduce_sum product)))
                    (squeeze indices) log_probs),
             head ++ [Squeeze; Mul; ReduceSum; Neg; ReduceMean])
        end
  end.
Proof.
  intros log_probs head. subst head.
  unfold create_model, head_events, tf_argmax, tf_mul.
  cbn -[argmax mul one_hot log_softmax bias_add matmul_transpose_b dropout
        squeeze reduce_mean neg reduce_sum].
  fold (output_weights pooled_width variables num_labels)
       (output_bias variables num_labels).
  fold (logits_of pooled_width variables
          (dropout draw (9 / 10)%R
             (pooled_output input_ids input_mask segment_ids)) num_labels).
  fold (log_probs_of' input_ids input_mask segment_ids num_labels).
  fold log_probs.
  destruct (argmax log_probs) as [indices|]; [|reflexivity].
  destruct is_predicting; [reflexivity|].
  cbn -[mul one_hot squeeze reduce_mean neg reduce_sum].
  destruct (mul (one_hot labels num_labels) log_probs); reflexivity.
Qed.

(** The head of the trace does not depend on how the run ends. *)
Lemma create_model_events is_predicting input_ids input_mask segment_ids
    labels num_labels :
  ∃ rest,
    events (create_model' is_predicting input_ids input_mask segment_ids
              labels num_labels)
    = head_events' is_predicting input_ids input_mask segment_ids labels
        num_labels ++ rest.
Proof.
  rewrite create_model_run. cbv zeta.
  destruct (argmax _); [|by exists []; rewrite app_nil_r].
  destruct is_predicting; [by eexists|].
  destruct (mul _ _); by eexists.
Qed.

(** With rows to reduce over, [tf.argmax] succeeds. *)
Lemma argmax_log_probs input_ids input_mask segment_ids num_labels :
  (0 < num_labels)%nat →
  ∃ indices,
    argmax (log_probs_of' input_ids input_mask segment_ids num_labels)
    = Some indices.
Proof.
  intros Hpos. apply argmax_total.
  eapply Forall_impl; [apply log_probs_of_rows|].
  intros row Hlen ->. simpl in Hlen. lia.
Qed.

Lemma argmax_length input_ids input_mask segment_ids num_labels indices :
  argmax (log_probs_of' input_ids input_mask segment_ids num_labels)
  = Some indices →
  length indices = length (pooled_output input_ids input_mask segment_ids).
Proof.
  intros Hargmax. apply argmax_spec, Forall2_length in Hargmax.
  by rewrite <- Hargmax, log_probs_of_length.
Qed.

(** What [metric_fn] does: nine metrics on compatible shapes, a
    [ValueError] in the first one otherwise. *)
Lemma metric_fn_run (label_ids predicted_labels : tensor) :
  metric_fn label_ids predicted_labels
  = if compatible_shapes label_ids predicted_labels
    then (inr (metric_ops label_ids predicted_labels),
          metric_fn_events label_ids predicted_labels)
    else (inl (ValueError "incompatible shapes"),
          [CallMetricFn label_ids predicted_labels; Metric Accuracy]).
Proof.
  unfold metric_fn, tf_metric.
  destruct (compatible_shapes label_ids predicted_labels); reflexivity.
Qed.

(** One label per example is compatible with the squeezed predictions. *)
Lemma compatible_squeeze (labels indices : list Z) :
  length labels = length indices →
  compatible_shapes (IntVector labels) (squeeze indices) = true.
Proof.
  intros Hlen. unfold compatible_shapes.
  destruct indices as [|z [|z' indices]]; simpl in *.
  - rewrite Hlen. reflexivity.
  - rewrite Hlen. reflexivity.
  - rewrite Hlen. simpl. by rewrite bool_decide_eq_true.
Qed.

Lemma model_fn_run num_labels learning_rate num_train_steps num_warmup_steps
    features labels mode params input_ids input_mask segment_ids label_ids :
  has_features features input_ids input_mask segment_ids label_ids →
  model_fn_builder' num_labels learning_rate num_train_steps num_warmup_steps
    features labels mode params =
  let is_predicting := String.eqb mode (PREDICT keys) in
  match create_model' is_predicting input_ids input_mask segment_ids
          label_ids num_labels with
  | (inl e, t) => (inl e, t)
  | (inr (LabelsAndProbsTensors predicted_labels log_probs), t) =>
      if is_predicting then
        (inr (predict_spec mode predicted_labels log_probs),
         t ++ [NewEstimatorSpec mode])
      else (inl (ValueError "unpack"), t)
  | (inr (LossLabelsAndProbsTensors loss predicted_labels log_probs), t) =>
      if is_predicting then (inl (ValueError "unpack"), t)
      else if compatible_shapes label_ids predicted_labels then
        let step := training_step loss learning_rate num_train_steps
                      num_warmup_steps in
        (inr (if String.eqb mode (TRAIN keys)
              then train_spec mode loss step
              else eval_spec mode loss (metric_ops label_ids predicted_labels)),
         t ++ [CreateOptimizer loss learning_rate num_train_steps
                 num_warmup_steps false]
           ++ metric_fn_events label_ids predicted_labels
           ++ [NewEstimatorSpec mode])
      else
        (inl (ValueError "incompatible shapes"),
         t ++ [CreateOptimizer loss learning_rate num_train_steps
                 num_warmup_steps false;
               CallMetricFn label_ids predicted_labels; Metric Accuracy])
  end.
Proof.
  intros (Hids & Hmask & Hseg & Hlab).
  unfold model_fn_builder, getitem. rewrite Hids, Hmask, Hseg, Hlab.
  cbn -[create_model String.eqb metric_fn].
  destruct (String.eqb mode (PREDICT keys));
    cbn -[create_model String.eqb metric_fn];
    destruct (create_model' _ input_ids input_mask segment_ids label_ids
                num_labels) as [[e|[p lp|l p lp]] t];
    cbn -[String.eqb metric_fn]; rewrite ?app_nil_r; try reflexivity.
  rewrite metric_fn_run.
  destruct (compatible_shapes label_ids p); [|reflexivity].
  destruct (String.eqb mode (TRAIN keys)); cbn; reflexivity.
Qed.

(** What a returning run of [create_model] returns. *)
Lemma create_model_returns is_predicting input_ids input_mask segment_ids
    labels num_labels out :
  outcome (create_model' is_predicting input_ids input_mask segment_ids
             labels num_labels) = inr out →
  ∃ indices,
    argmax (log_probs_of' input_ids input_mask segment_ids num_labels)
    = Some indices
    ∧ out_predicted_labels out = squeeze indices
    ∧ out_log_probs out
      = log_probs_of' input_ids input_mask segment_ids num_labels
    ∧ (if is_predicting then out_loss out = None
       else ∃ product,
         mul (one_hot labels num_labels)
           (log_probs_of' input_ids input_mask segment_ids num_labels)
         = Some product
         ∧ out_loss out = Some (reduce_mean (neg (reduce_sum product)))).
Proof.
  rewrite create_model_run. cbv zeta.
  destruct (argmax _) as [indices|]; [|done].
  destruct is_predicting.
  - intros [= <-]. by exists indices.
  - destruct (mul _ _) as [product|]; [|done].
    intros [= <-]. exists indices. split_and!; try done. by exists product.
Qed.

Lemma create_model_predict_run input_ids input_mask segment_ids labels
    num_labels :
  (0 < num_labels)%nat →
  ∃ indices,
    argmax (log_probs_of' input_ids input_mask segment_ids num_labels)
    = Some indices
    ∧ create_model' true input_ids input_mask segment_ids labels num_labels
      = (inr (LabelsAndProbsTensors (squeeze indices)
                (log_probs_of' input_ids input_mask segment_ids num_labels)),
         head_events' true input_ids input_mask segment_ids labels num_labels
           ++ [Squeeze]).
Proof.
  intros Hpos.
  destruct (argmax_log_probs input_ids input_mask segment_ids num_labels Hpos)
    as [indices Hindices].
  exists indices. split; [done|]. rewrite create_model_run. cbv zeta.
  by rewrite Hindices.
Qed.

Lemma create_model_loss_run input_ids input_mask segment_ids labels
    num_labels :
  (0 < num_labels)%nat →
  length labels = length (pooled_output input_ids input_mask segment_ids) →
  ∃ indices,
    argmax (log_probs_of' input_ids input_mask segment_ids num_labels)
    = Some indices
    ∧ create_model' false input_ids input_mask segment_ids
        (IntVector labels) num_labels
      = (inr (LossLabelsAndProbsTensors
                (spec_batch_loss num_labels labels
                   (log_probs_of' input_ids input_mask segment_ids
                      num_labels))
                (squeeze indices)
                (log_probs_of' input_ids input_mask segment_ids num_labels)),
         head_events' false input_ids input_mask segment_ids
           (IntVector labels) num_labels
           ++ [Squeeze; Mul; ReduceSum; Neg; ReduceMean]).
Proof.
  intros Hpos Hlen.
  destruct (argmax_log_probs input_ids input_mask segment_ids num_labels Hpos)
    as [indices Hindices].
  destruct (loss_refines_spec num_labels labels
              (log_probs_of' input_ids input_mask segment_ids num_labels))
    as (product & Hmul & Hloss).
  { by rewrite log_probs_of_length. }
  { apply log_probs_of_rows. }
  exists indices. split; [done|]. rewrite create_model_run. cbv zeta.
  by rewrite Hindices, Hmul, Hloss.
Qed.

(** Without one of its four keys, [model_fn] raises [KeyError] before
    anything else happens. *)
Lemma model_fn_features num_labels learning_rate num_train_steps
    num_warmup_steps features labels mode params :
  (∃ input_ids input_mask segment_ids label_ids,
     has_features features input_ids input_mask segment_ids label_ids)
  ∨ (∃ key,
       features !! key = None
       ∧ model_fn_builder' num_labels learning_rate num_train_steps
           num_warmup_steps features labels mode params
         = (inl (KeyError key), [])
       ∧ (is_Some (features !! "input_ids") →
          is_Some (features !! "input_mask") →
          is_Some (features !! "segment_ids") → key = "label_ids")).
Proof.
  unfold model_fn_builder, getitem, has_features.
  destruct (features !! "input_ids") as [ids|] eqn:Hids; cycle 1.
  { right. exists "input_ids". split_and!; done. }
  destruct (features !! "input_mask") as [mask|] eqn:Hmask; cycle 1.
  { right. exists "input_mask". split_and!; done. }
  destruct (features !! "segment_ids") as [seg|] eqn:Hseg; cycle 1.
  { right. exists "segment_ids". split_and!; done. }
  destruct (features !! "label_ids") as [lab|] eqn:Hlab; cycle 1.
  { right. exists "label_ids". split_and!; done. }
  left. by exists ids, mask, seg, lab.
Qed.


(** On a features mapping with the four keys, one label per example and
    at least one class, [model_fn] returns, in every mode. *)
Lemma model_fn_returns num_labels learning_rate num_train_steps
    num_warmup_steps features labels mode params input_ids input_mask
    segment_ids label_ids :
  has_features features input_ids input_mask segment_ids
    (IntVector label_ids) →
  (0 < num_labels)%nat →
  length label_ids = length (pooled_output input_ids input_mask segment_ids) →
  ∃ spec,
    outcome (model_fn_builder' num_labels learning_rate num_train_steps
               num_warmup_steps features labels mode params) = inr spec.
Proof.
  intros Hf Hpos Hlen.
  rewrite (model_fn_run _ _ _ _ _ _ _ _ _ _ _ _ Hf). cbv zeta.
  destruct (String.eqb mode (PREDICT keys)) eqn:Hp.
  - destruct (create_model_predict_run input_ids input_mask segment_ids
                (IntVector label_ids) num_labels Hpos) as (indices & _ & ->).
    by eexists.
  - destruct (create_model_loss_run input_ids input_mask segment_ids
                label_ids num_labels Hpos Hlen) as (indices & Hargmax & ->).
    rewrite compatible_squeeze; [by eexists|].
    by rewrite Hlen, (argmax_length _ _ _ _ _ Hargmax).
Qed.

(** *** The claims about the mode dispatcher *)

(** C1. Whichever of TRAIN, EVAL and PREDICT the mode is, what
    [model_fn] returns has the structure of that mode: in PREDICT mode a
    predictions dict with exactly the keys "probabilities" and "labels"
    and no loss (nor training step, nor metrics); in TRAIN mode a loss and
    a training step and no metrics; in EVAL mode a loss and the metrics
    and no training step.  And [model_fn] does return on a features mapping with
    the four keys, one label per example and at least one class. *)
Theorem model_fn_output_bundle num_labels learning_rate num_train_steps
    num_warmup_steps features labels mode params :
  distinct_modes keys →
  (∀ spec,
     outcome (model_fn_builder' num_labels learning_rate num_train_steps
                num_warmup_steps features labels mode params) = inr spec →
     mode_bundle keys mode spec)
  ∧ (∀ input_ids input_mask segment_ids label_ids,
       has_features features input_ids input_mask segment_ids
         (IntVector label_ids) →
       (0 < num_labels)%nat →
       length label_ids
       = length (pooled_output input_ids input_mask segment_ids) →
       ∃ spec,
         outcome (model_fn_builder' num_labels learning_rate num_train_steps
                    num_warmup_steps features labels mode params)
         = inr spec).
Proof.
  intros (Hte & Htp & Hep). split.
  - intros spec.
    destruct (model_fn_features num_labels learning_rate num_train_steps
                num_warmup_steps features labels mode params)
      as [(ids & mask & seg & lab & Hf)|(key & _ & -> & _)]; [|done].
    rewrite (model_fn_run _ _ _ _ _ _ _ _ _ _ _ _ Hf). cbv zeta.
    destruct (create_model' _ ids mask seg lab num_labels)
      as [[e|[p lp|l p lp]] t]; [done|..].
    + destruct (String.eqb mode (PREDICT keys)) eqn:Hp; [|done].
      apply String.eqb_eq in Hp. intros [= <-]. split_and!.
      * intros _. exists (list_to_map [("probabilities", FloatTensor lp);
                                       ("labels", IntTensor p)]), lp, p.
        split_and!; done.
      * intros ->. done.
      * intros ->. done.
    + destruct (String.eqb mode (PREDICT keys)) eqn:Hp; [done|].
      apply String.eqb_neq in Hp.
      destruct (compatible_shapes lab p); [|done].
      destruct (String.eqb mode (TRAIN keys)) eqn:Ht.
      * apply String.eqb_eq in Ht. intros [= <-]. split_and!.
        -- done.
        -- intros _. by eexists _, _.
        -- intros ->. done.
      * apply String.eqb_neq in Ht. intros [= <-]. split_and!.
        -- done.
        -- done.
        -- intros _. by eexists _, _.
  - intros ids mask seg ls Hf Hpos Hlen. by eapply model_fn_returns.
Qed.



Lemma optimizer_calls_app (t t' : trace) :
  optimizer_calls (t ++ t') = optimizer_calls t ++ optimizer_calls t'.
Proof.
  induction t as [|e t IH]; [done|]. destruct e; simpl; rewrite ?IH; done.
Qed.

Lemma create_model_quiet is_predicting input_ids input_mask segment_ids
    labels num_labels :
  let t := events (create_model' is_predicting input_ids input_mask
                     segment_ids labels num_labels) in
  metric_fn_calls t = 0%nat ∧ metrics_built t = 0%nat
  ∧ optimizer_calls t = [].
Proof.
  rewrite create_model_run. cbv zeta.
  destruct (argmax _); [|done].
  destruct is_predicting; [done|].
  destruct (mul _ _); done.
Qed.

(** With its four keys, [model_fn] reaches [create_model]. *)
Lemma model_fn_reaches_create_model num_labels learning_rate num_train_steps
    num_warmup_steps features labels mode params input_ids input_mask
    segment_ids label_ids :
  has_features features input_ids input_mask segment_ids label_ids →
  events (model_fn_builder' num_labels learning_rate num_train_steps
            num_warmup_steps features labels mode params) ≠ [].
Proof.
  intros Hf. rewrite (model_fn_run _ _ _ _ _ _ _ _ _ _ _ _ Hf). cbv zeta.
  rewrite create_model_run. cbv zeta.
  destruct (argmax _); [|done].
  destruct (String.eqb mode (PREDICT keys)); [done|].
  destruct (mul _ _); [|done].
  destruct (compatible_shapes _ _); done.
Qed.


(** C9. A features mapping without the key "label_ids" makes [model_fn]
    raise [KeyError] in every mode, PREDICT included, before any call is
    made; the missing key it reports is "label_ids" when the three other
    keys are there.  And [create_model] one-hot encodes the labels it is
    given on every run, predicting or not. *)
Theorem label_ids_required :
  (∀ num_labels learning_rate num_train_steps num_warmup_steps features
     labels mode params,
     features !! "label_ids" = None →
     ∃ key,
       model_fn_builder' num_labels learning_rate num_train_steps
         num_warmup_steps features labels mode params
       = (inl (KeyError key), [])
       ∧ features !! key = None
       ∧ (is_Some (features !! "input_ids") →
          is_Some (features !! "input_mask") →
          is_Some (features !! "segment_ids") → key = "label_ids"))
  ∧ (∀ is_predicting input_ids input_mask segment_ids labels num_labels,
       one_hot_calls
         (events (create_model' is_predicting input_ids input_mask
                    segment_ids labels num_labels))
       = [(labels, num_labels)]).
Proof.
  split.
  - intros num_labels learning_rate num_train_steps num_warmup_steps features
      labels mode params Hnone.
    destruct (model_fn_features num_labels learning_rate num_train_steps
                num_warmup_steps features labels mode params)
      as [(ids & mask & seg & lab & Hf)|(key & Hkey & Hrun & Hwhich)].
    + destruct Hf as (_ & _ & _ & Hlab). congruence.
    + by exists key.
  - intros is_predicting input_ids input_mask segment_ids labels num_labels.
    rewrite create_model_run. cbv zeta.
    destruct (argmax _); [|done].
    destruct is_predicting; [done|].
    destruct (mul _ _); done.
Qed.

(** C10. A run of [model_fn] that returns in EVAL mode has called
    [create_optimizer] once, with the arguments of the TRAIN run on the
    same input: the loss, the learning rate, the step counts and
    [use_tpu=False].  The TRAIN bundle carries the training step built
    from them; the EVAL bundle has the loss and the metrics and no
    training step. *)
Theorem eval_builds_training_step num_labels learning_rate num_train_steps
    num_warmup_steps features labels params spec :
  distinct_modes keys →
  outcome (model_fn_builder' num_labels learning_rate num_train_steps
             num_warmup_steps features labels (EVAL keys) params)
  = inr spec →
  ∃ loss metrics calls,
    let step := training_step loss learning_rate num_train_steps
                  num_warmup_steps in
    model_fn_builder' num_labels learning_rate num_train_steps
      num_warmup_steps features labels (EVAL keys) params
    = (inr spec, calls ++ [NewEstimatorSpec (EVAL keys)])
    ∧ spec = eval_spec (EVAL keys) loss metrics
    ∧ model_fn_builder' num_labels learning_rate num_train_steps
        num_warmup_steps features labels (TRAIN keys) params
      = (inr (train_spec (TRAIN keys) loss step),
         calls ++ [NewEstimatorSpec (TRAIN keys)])
    ∧ optimizer_calls calls = [step].
Proof.
  intros (Hte & Htp & Hep).
  destruct (model_fn_features num_labels learning_rate num_train_steps
              num_warmup_steps features labels (EVAL keys) params)
    as [(ids & mask & seg & lab & Hf)|(key & _ & -> & _)]; [|done].
  rewrite !(model_fn_run _ _ _ _ _ _ _ _ _ _ _ _ Hf). cbv zeta.
  assert (String.eqb (EVAL keys) (PREDICT keys) = false) as ->
    by by apply String.eqb_neq.
  assert (String.eqb (TRAIN keys) (PREDICT keys) = false) as ->
    by by apply String.eqb_neq.
  assert (String.eqb (EVAL keys) (TRAIN keys) = false) as ->
    by by apply String.eqb_neq.
  rewrite String.eqb_refl.
  pose proof (create_model_quiet false ids mask seg lab num_labels)
    as Hquiet. cbv zeta in Hquiet.
  destruct (create_model' false ids mask seg lab num_labels)
    as [[e|[p lp|l p lp]] t]; [done..|].
  simpl in Hquiet. destruct Hquiet as (_ & _ & Hopt).
  destruct (compatible_shapes lab p); [|done].
  intros [= <-].
  exists l, (metric_ops lab p),
    (t ++ [CreateOptimizer l learning_rate num_train_steps num_warmup_steps
             false] ++ metric_fn_events lab p).
  cbv zeta. split_and!.
  - f_equal. by rewrite <- !app_assoc.
  - done.
  - f_equal. by rewrite <- !app_assoc.
  - by rewrite optimizer_calls_app, Hopt.
Qed.

(** *** The claim about the metrics *)

(** C5, as the program has it.  On label ids and predicted labels of
    compatible shapes (the same shape once a squeezable last axis of size
    1 is removed), [metric_fn] returns a mapping with exactly the nine keys
    "eval_accuracy", "f1_score", "auc", "precision", "recall",
    "true_positives", "true_negatives", "false_positives" and
    "false_negatives", one for each of accuracy, F1 score, AUC, precision,
    recall, true positives, true negatives, false positives and false
    negatives, each computed from these label ids and predicted labels.
    On incompatible shapes it raises [ValueError] in the first metric and
    returns no mapping. *)
Theorem metric_fn_keys (label_ids predicted_labels : tensor) :
  (compatible_shapes label_ids predicted_labels = true →
   ∃ metrics : gmap string metric_op,
     metric_fn label_ids predicted_labels
     = (inr metrics, metric_fn_events label_ids predicted_labels)
     ∧ size metrics = 9%nat
     ∧ dom metrics
       = {[ "eval_accuracy"; "f1_score"; "auc"; "precision"; "recall";
            "true_positives"; "true_negatives"; "false_positives";
            "false_negatives" ]}
     ∧ metric <$> metrics = list_to_map spec_metric_keys
     ∧ map_Forall (fun _ op => metric_labels op = label_ids
                               ∧ metric_predictions op = predicted_labels)
         metrics)
  ∧ (compatible_shapes label_ids predicted_labels = false →
     metric_fn label_ids predicted_labels
     = (inl (ValueError "incompatible shapes"),
        [CallMetricFn label_ids predicted_labels; Metric Accuracy])).
Proof.
  rewrite metric_fn_run. split; intros ->; [|done].
  exists (metric_ops label_ids predicted_labels). split_and!.
  - reflexivity.
  - reflexivity.
  - reflexivity.
  - reflexivity.
  - intros key op Hop. apply elem_of_list_to_map_2 in Hop.
    repeat (apply elem_of_cons in Hop as [Heq|Hop];
            [by injection Heq as _ ->|]).
    by apply elem_of_nil in Hop.
Qed.

(** *** The claims about the classification head *)

(** C3. On a batch with a vector of labels, one per example, and at least
    one class, [create_model] one-hot encodes the labels to depth
    [num_labels] and returns, as its loss, the mean over the batch of the
    losses of the examples, each of them minus the sum over the label axis
    of one-hot times log-probability. *)
Theorem create_model_loss input_ids input_mask segment_ids labels num_labels :
  (0 < num_labels)%nat →
  length labels = length (pooled_output input_ids input_mask segment_ids) →
  let run := create_model' false input_ids input_mask segment_ids
               (IntVector labels) num_labels in
  let log_probs := log_probs_of' input_ids input_mask segment_ids
                     num_labels in
  ∃ predicted_labels,
    outcome run
    = inr (LossLabelsAndProbsTensors
             (spec_batch_loss num_labels labels log_probs)
             predicted_labels log_probs)
    ∧ one_hot_calls (events run) = [(IntVector labels, num_labels)]
    ∧ one_hot (IntVector labels) num_labels
      = FMatrix (map (fun label => spec_one_hot label num_labels) labels).
Proof.
  intros Hpos Hlen run log_probs. subst run log_probs.
  destruct (create_model_loss_run input_ids input_mask segment_ids labels
              num_labels Hpos Hlen) as (indices & _ & ->).
  exists (squeeze indices). split_and!; try done.
  simpl. f_equal. apply map_ext. intros label. apply one_hot_row_spec.
Qed.

(** C4. Whenever [create_model] returns, predicting or not, the predicted
    labels are the indices of the maxima of the rows of [log_probs], one
    per example, squeezed: a batch of one example gives a scalar, any
    other batch a vector.  And [create_model] does return when predicting
    with at least one class. *)
Theorem predicted_labels_argmax input_ids input_mask segment_ids labels
    num_labels :
  (∀ is_predicting out,
     outcome (create_model' is_predicting input_ids input_mask segment_ids
                labels num_labels) = inr out →
     ∃ indices,
       Forall2 index_of_maximum (out_log_probs out) indices
       ∧ out_predicted_labels out
         = match indices with
           | [index] => IntScalar index
           | _ => IntVector indices
           end)
  ∧ ((0 < num_labels)%nat →
     ∃ out,
       outcome (create_model' true input_ids input_mask segment_ids labels
                  num_labels) = inr out).
Proof.
  split.
  - intros is_predicting out Hout.
    apply create_model_returns in Hout
      as (indices & Hargmax & Hpredicted & Hlog_probs & _).
    exists indices. rewrite Hlog_probs. split; [|done].
    by apply argmax_spec.
  - intros Hpos.
    destruct (create_model_predict_run input_ids input_mask segment_ids
                labels num_labels Hpos) as (indices & _ & ->).
    by eexists.
Qed.

(** C6. Every run of [create_model] calls [tf.nn.dropout] exactly once,
    on the pooled output of the encoder with keep-probability 0.9,
    whether it is predicting or not and however it ends; the
    log-probabilities it returns are those of the dropped-out pooled
    output in both cases. *)
Theorem dropout_unconditional is_predicting input_ids input_mask segment_ids
    labels num_labels :
  let run := create_model' is_predicting input_ids input_mask segment_ids
               labels num_labels in
  let pooled := pooled_output input_ids input_mask segment_ids in
  dropout_calls (events run) = [(pooled, (9 / 10)%R)]
  ∧ match outcome run with
    | inr out =>
        out_log_probs out
        = log_softmax
            (logits_of pooled_width variables
               (dropout draw (9 / 10)%R pooled) num_labels)
    | inl _ => True
    end.
Proof.
  intros run pooled. subst run pooled.
  rewrite create_model_run. cbv zeta.
  destruct (argmax _); [|done].
  destruct is_predicting; [done|].
  destruct (mul _ _); done.
Qed.

(** In exact arithmetic the rows of [log_probs] are normalised: whenever
    [create_model] returns, every row has one entry per class and the
    exponentials of its entries sum to 1.  This is a fact of the
    idealisation over the reals; in [tf.float32] the sum is 1 only up to
    rounding. *)
Theorem log_probs_normalised is_predicting input_ids input_mask segment_ids
    labels num_labels out :
  outcome (create_model' is_predicting input_ids input_mask segment_ids
             labels num_labels) = inr out →
  ∀ row, row ∈ out_log_probs out →
    length row = num_labels ∧ sum_list (map exp row) = 1%R.
Proof.
  intros Hout row Hrow.
  apply create_model_returns in Hout
    as (indices & Hargmax & _ & Hlog_probs & _).
  rewrite Hlog_probs in Hrow.
  assert (length row = num_labels) as Hlen.
  { pose proof (log_probs_of_rows input_ids input_mask segment_ids
                  num_labels) as Hrows.
    rewrite Forall_forall in Hrows. by apply Hrows. }
  split; [done|].
  assert (row ≠ []) as Hne.
  { unfold argmax in Hargmax. apply mapM_Some in Hargmax.
    apply list_elem_of_lookup in Hrow as [i Hi].
    destruct (Forall2_lookup_l _ _ _ _ _ Hargmax Hi) as (k & _ & Hk).
    by intros ->. }
  unfold log_probs_of, log_softmax in Hrow.
  apply list_elem_of_fmap in Hrow as (logits & -> & _).
  apply log_softmax_row_normalised. intros ->. by apply Hne.
Qed.

(** The loss of a returning run on a vector of labels. *)
Lemma create_model_loss_value input_ids input_mask segment_ids labels
    num_labels out :
  length labels = length (pooled_output input_ids input_mask segment_ids) →
  outcome (create_model' false input_ids input_mask segment_ids
             (IntVector labels) num_labels) = inr out →
  out_log_probs out
  = log_probs_of' input_ids input_mask segment_ids num_labels
  ∧ out_loss out
    = Some (spec_batch_loss num_labels labels
              (log_probs_of' input_ids input_mask segment_ids num_labels)).
Proof.
  intros Hlen Hout.
  apply create_model_returns in Hout
    as (indices & _ & _ & Hlog_probs & product & Hmul & Hloss).
  split; [done|]. rewrite Hloss.
  destruct (loss_refines_spec num_labels labels
              (log_probs_of' input_ids input_mask segment_ids num_labels))
    as (product' & Hmul' & Hspec).
  { by rewrite log_probs_of_length. }
  { apply log_probs_of_rows. }
  congruence.
Qed.

End Runs.

(** ** The sign and the limit of the loss in exact arithmetic *)

(** In exact arithmetic, on a batch of at least one example with one
    label per example, the loss [create_model] returns is non-negative;
    and it is below any [eps > 0] as soon as every example's predicted
    distribution gives its label a probability above [1 - delta], for
    [delta = 1 - exp (- eps)], which depends on [eps] alone.  This is a
    fact of the idealisation over the reals: in [tf.float32] the loss of
    an empty batch, and a loss whose computation overflows, is NaN. *)
Theorem loss_nonnegative_and_vanishing (eps : R) :
  (0 < eps)%R →
  let delta := (1 - exp (- eps))%R in
  (0 < delta)%R
  ∧ ∀ BERT_MODEL_HUB pooled_output pooled_width variables draw
      input_ids input_mask segment_ids labels num_labels out,
      labels ≠ [] →
      length labels
      = length (pooled_output input_ids input_mask segment_ids) →
      outcome (create_model BERT_MODEL_HUB pooled_output pooled_width
                 variables draw false input_ids input_mask segment_ids
                 (IntVector labels) num_labels) = inr out →
      ∃ loss,
        out_loss out = Some loss
        ∧ (0 <= loss)%R
        ∧ (Forall2 (fun label row =>
                      (1 - delta < probability_of row label)%R)
             labels (out_log_probs out) →
           (loss < eps)%R).
Proof.
  intros Heps delta. subst delta. split.
  - assert (exp (- eps) < exp 0)%R as H by (apply exp_increasing; lra).
    rewrite exp_0 in H. lra.
  - intros BERT_MODEL_HUB pooled_output pooled_width variables draw
      input_ids input_mask segment_ids labels num_labels out Hne Hlen Hout.
    destruct (create_model_loss_value _ _ _ _ _ _ _ _ _ _ _ Hlen Hout)
      as [Hlog_probs Hloss].
    eexists. split; [exact Hloss|]. split.
    + apply batch_loss_nonneg; [done|].
      unfold logits_of, bias_add, matmul_transpose_b, dropout.
      by rewrite !length_map, length_imap.
    + rewrite Hlog_probs. intros Hall.
      apply batch_loss_small; [done..|].
      eapply Forall2_impl; [exact Hall|]. simpl. intros label row.
      by replace (1 - (1 - exp (- eps)))%R with (exp (- eps)) by lra.
Qed.

(** ** The claims on the concrete batch *)

Lemma sample_modes : distinct_modes Sample.keys.
Proof. by split_and!. Qed.

Lemma sample_features :
  has_features Sample.features Sample.input_ids Sample.input_mask
    Sample.segment_ids (IntVector [1; 0]%Z).
Proof. by split_and!. Qed.

Lemma sample_batch :
  length [1; 0]%Z
  = length (Sample.pooled_output Sample.input_ids Sample.input_mask
              Sample.segment_ids).
Proof. reflexivity. Qed.

Lemma model_fn_output_bundle_witness :
  ∃ spec,
    outcome (Sample.model_fn Sample.features [] "infer" ∅) = inr spec
    ∧ mode_bundle Sample.keys "infer" spec.
Proof.
  destruct (model_fn_output_bundle Sample.keys Sample.BERT_MODEL_HUB
              Sample.pooled_output Sample.pooled_width Sample.variables
              Sample.draw 2 (2 / 100000)%R 100 10 Sample.features [] "infer"
              ∅ sample_modes) as [Hbundle Hreturns].
  destruct (Hreturns _ _ _ _ sample_features ltac:(lia) sample_batch)
    as [spec Hspec].
  exists spec. split; [exact Hspec | exact (Hbundle spec Hspec)].
Defined.



(** C5 as the specification has it fails twice: on incompatible shapes
    [metric_fn] returns no mapping, and the mapping it returns otherwise
    has no key "accuracy", "F1 score" or "AUC". *)
Lemma metric_fn_raises_and_renames :
  outcome (metric_fn (IntVector [1; 0; 1]%Z) (IntVector [1; 0]%Z))
  = inl (ValueError "incompatible shapes")
  ∧ ∃ metrics,
      outcome (metric_fn (IntVector [1; 0]%Z) (IntVector [1; 0]%Z))
      = inr metrics
      ∧ metrics !! "accuracy" = None
      ∧ metrics !! "F1 score" = None
      ∧ metrics !! "AUC" = None.
Proof.
  split; [reflexivity|]. eexists. split; [reflexivity|].
  split_and!; reflexivity.
Qed.

Lemma metric_fn_keys_witness :
  (∃ metrics : gmap string metric_op,
     outcome (metric_fn (IntVector [1; 0]%Z) (IntVector [0; 0]%Z))
     = inr metrics
     ∧ size metrics = 9%nat)
  ∧ outcome (metric_fn (IntVector [1]%Z) (IntVector [0; 0]%Z))
    = inl (ValueError "incompatible shapes").
Proof.
  split.
  - destruct (proj1 (metric_fn_keys (IntVector [1; 0]%Z)
                       (IntVector [0; 0]%Z)) eq_refl)
      as (metrics & Hrun & Hsize & _).
    exists metrics. split; [by rewrite Hrun | exact Hsize].
  - by rewrite (proj2 (metric_fn_keys (IntVector [1]%Z)
                         (IntVector [0; 0]%Z)) eq_refl).
Defined.

Lemma create_model_loss_witness :
  let log_probs :=
    log_probs_of Sample.pooled_output Sample.pooled_width Sample.variables
      Sample.draw Sample.input_ids Sample.input_mask Sample.segment_ids 2 in
  ∃ predicted_labels,
    outcome (Sample.create_model false Sample.input_ids Sample.input_mask
               Sample.segment_ids (IntVector [1; 0]%Z) 2)
    = inr (LossLabelsAndProbsTensors (spec_batch_loss 2 [1; 0]%Z log_probs)
             predicted_labels log_probs)
    ∧ one_hot_calls
        (events (Sample.create_model false Sample.input_ids
                   Sample.input_mask Sample.segment_ids
                   (IntVector [1; 0]%Z) 2))
      = [(IntVector [1; 0]%Z, 2%nat)]
    ∧ one_hot (IntVector [1; 0]%Z) 2
      = FMatrix (map (fun label => spec_one_hot label 2) [1; 0]%Z).
Proof.
  exact (create_model_loss Sample.BERT_MODEL_HUB Sample.pooled_output
           Sample.pooled_width Sample.variables Sample.draw Sample.input_ids
           Sample.input_mask Sample.segment_ids [1; 0]%Z 2 ltac:(lia)
           sample_batch).
Defined.

Lemma predicted_labels_argmax_witness :
  ∃ out indices,
    outcome (Sample.create_model true Sample.input_ids Sample.input_mask
               Sample.segment_ids Sample.label_ids 2) = inr out
    ∧ Forall2 index_of_maximum (out_log_probs out) indices
    ∧ out_predicted_labels out
      = match indices with
        | [index] => IntScalar index
        | _ => IntVector indices
        end.
Proof.
  destruct (predicted_labels_argmax Sample.BERT_MODEL_HUB
              Sample.pooled_output Sample.pooled_width Sample.variables
              Sample.draw Sample.input_ids Sample.input_mask
              Sample.segment_ids Sample.label_ids 2) as [Hspec Hreturns].
  destruct (Hreturns ltac:(lia)) as [out Hout].
  destruct (Hspec true out Hout) as (indices & Hmax & Hpredicted).
  exists out, indices. split_and!; [exact Hout | exact Hmax | exact Hpredicted].
Defined.

Lemma sample_predict_returns :
  ∃ out,
    outcome (Sample.create_model true Sample.input_ids Sample.input_mask
               Sample.segment_ids Sample.label_ids 2) = inr out.
Proof.
  destruct (create_model_predict_run Sample.BERT_MODEL_HUB
              Sample.pooled_output Sample.pooled_width Sample.variables
              Sample.draw Sample.input_ids Sample.input_mask
              Sample.segment_ids Sample.label_ids 2 ltac:(lia))
    as (indices & _ & Hrun).
  unfold Sample.create_model. rewrite Hrun. by eexists.
Qed.

Lemma label_ids_required_witness :
  Sample.features_without_labels !! "label_ids" = None
  ∧ Sample.model_fn Sample.features_without_labels [] "infer" ∅
    = (inl (KeyError "label_ids"), []).
Proof.
  assert (Sample.features_without_labels !! "label_ids" = None) as Hnone
    by reflexivity.
  split; [exact Hnone|].
  destruct (proj1 (label_ids_required Sample.keys Sample.BERT_MODEL_HUB
                     Sample.pooled_output Sample.pooled_width
                     Sample.variables Sample.draw)
              2%nat (2 / 100000)%R 100%Z 10%Z Sample.features_without_labels
              [] "infer" ∅ Hnone) as (key & Hrun & _ & Hkey).
  unfold Sample.model_fn. rewrite Hrun.
  rewrite Hkey; [reflexivity | by eexists..].
Defined.

Lemma eval_builds_training_step_witness :
  ∃ spec loss metrics calls,
    Sample.model_fn Sample.features [] "eval" ∅
    = (inr spec, calls ++ [NewEstimatorSpec "eval"])
    ∧ spec = eval_spec "eval" loss metrics
    ∧ Sample.model_fn Sample.features [] "train" ∅
      = (inr (train_spec "train" loss
                (training_step loss (2 / 100000)%R 100 10)),
         calls ++ [NewEstimatorSpec "train"])
    ∧ optimizer_calls calls
      = [training_step loss (2 / 100000)%R 100 10].
Proof.
  destruct (model_fn_returns Sample.keys Sample.BERT_MODEL_HUB
              Sample.pooled_output Sample.pooled_width Sample.variables
              Sample.draw 2 (2 / 100000)%R 100 10 Sample.features [] "eval"
              ∅ _ _ _ _ sample_features ltac:(lia) sample_batch)
    as [spec Hspec].
  destruct (eval_builds_training_step Sample.keys Sample.BERT_MODEL_HUB
              Sample.pooled_output Sample.pooled_width Sample.variables
              Sample.draw 2 (2 / 100000)%R 100 10 Sample.features [] ∅ spec
              sample_modes Hspec)
    as (loss & metrics & calls & Heval & Hbundle & Htrain & Hcalls).
  exists spec, loss, metrics, calls.
  split_and!; [exact Heval | exact Hbundle | exact Htrain | exact Hcalls].
Defined.

(** ** Further properties of the program *)

Section Further.

Variable keys : ModeKeys.
Variable BERT_MODEL_HUB : string.
Variable pooled_output : tensor → tensor → tensor → list (list R).
Variable pooled_width : nat.
Variable variables : string → list nat → R.
Variable draw : nat → nat → bool.

Abbreviation create_model_ :=
  (create_model BERT_MODEL_HUB pooled_output pooled_width variables draw).
Abbreviation model_fn_ :=
  (model_fn_builder keys BERT_MODEL_HUB pooled_output pooled_width variables
     draw).
Abbreviation log_probs_ :=
  (log_probs_of pooled_output pooled_width variables draw).
Abbreviation head_events_ :=
  (head_events BERT_MODEL_HUB pooled_output pooled_width).
Abbreviation model_fn_run_ :=
  (model_fn_run keys BERT_MODEL_HUB pooled_output pooled_width variables
     draw).
Abbreviation create_model_run_ :=
  (create_model_run BERT_MODEL_HUB pooled_output pooled_width variables
     draw).

Lemma loss_ops_app (t t' : trace) :
  loss_ops (t ++ t') = (loss_ops t + loss_ops t')%nat.
Proof.
  induction t as [|e t IH]; [done|]. destruct e; simpl; rewrite ?IH; done.
Qed.

Lemma specs_built_app (t t' : trace) :
  specs_built (t ++ t') = specs_built t ++ specs_built t'.
Proof.
  induction t as [|e t IH]; [done|]. destruct e; simpl; rewrite ?IH; done.
Qed.

(** *** Reading the features *)

(** X1. [model_fn] reads its four keys in the order "input_ids",
    "input_mask", "segment_ids", "label_ids": the first of them that the
    features mapping lacks is the key of the [KeyError] it raises, and it
    raises it before any call is made, in every mode. *)
Theorem model_fn_first_missing_key num_labels learning_rate num_train_steps
    num_warmup_steps features labels mode params before key after :
  feature_keys = before ++ key :: after →
  Forall (fun k => is_Some (features !! k)) before →
  features !! key = None →
  model_fn_ num_labels learning_rate num_train_steps num_warmup_steps
    features labels mode params
  = (inl (KeyError key), []).
Proof.
  intros Hkeys Hbefore Hnone. unfold feature_keys in Hkeys.
  unfold model_fn_builder, getitem.
  destruct before as [|k1 [|k2 [|k3 [|k4 before]]]];
    simplify_eq/=; repeat (apply Forall_cons in Hbefore as [[? ->] Hbefore]);
    rewrite ?Hnone; try done.
  by destruct before.
Qed.

(** X2. [model_fn] uses nothing but the four keys of [features] and the
    mode: two calls whose features mappings agree on the four keys run
    alike, whatever other keys the mappings hold and whatever [labels] and
    [params] are. *)
Theorem model_fn_frame num_labels learning_rate num_train_steps
    num_warmup_steps features features' labels labels' mode params params' :
  (∀ key, key ∈ feature_keys → features !! key = features' !! key) →
  model_fn_ num_labels learning_rate num_train_steps num_warmup_steps
    features labels mode params
  = model_fn_ num_labels learning_rate num_train_steps num_warmup_steps
      features' labels' mode params'.
Proof.
  intros Hagree. unfold model_fn_builder, getitem.
  rewrite !Hagree by (unfold feature_keys; set_solver).
  reflexivity.
Qed.

(** X3. In PREDICT mode the labels must be there but their value is
    never used: two features mappings with the same three input tensors
    give the same outcome, whatever tensors they hold under
    "label_ids". *)
Theorem predict_ignores_label_values num_labels learning_rate num_train_steps
    num_warmup_steps features features' labels labels' params params'
    input_ids input_mask segment_ids label_ids label_ids' :
  has_features features input_ids input_mask segment_ids label_ids →
  has_features features' input_ids input_mask segment_ids label_ids' →
  outcome (model_fn_ num_labels learning_rate num_train_steps
             num_warmup_steps features labels (PREDICT keys) params)
  = outcome (model_fn_ num_labels learning_rate num_train_steps
               num_warmup_steps features' labels' (PREDICT keys) params').
Proof.
  intros Hf Hf'.
  rewrite (model_fn_run_ _ _ _ _ _ _ _ _ _ _ _ _ Hf),
    (model_fn_run_ _ _ _ _ _ _ _ _ _ _ _ _ Hf'). cbv zeta.
  rewrite String.eqb_refl, !create_model_run_. cbv zeta.
  destruct (argmax _); reflexivity.
Qed.

(** X4. [model_fn] fails in three ways only.  One of the four keys is
    missing: the exception is the [KeyError] and nothing was called.  Or
    [create_model] fails: [model_fn] passes its exception on and calls
    nothing after it.  Or, outside PREDICT mode, [create_model] and
    [create_optimizer] have returned and [metric_fn] rejects the shapes of
    the labels and the predicted labels with [ValueError] in its first
    metric.  The unpacking of what [create_model] returns never fails:
    the result always has the arity of the branch that unpacks it. *)
Theorem model_fn_failures num_labels learning_rate num_train_steps
    num_warmup_steps features labels mode params e :
  let run := model_fn_ num_labels learning_rate num_train_steps
               num_warmup_steps features labels mode params in
  outcome run = inl e →
  e ≠ ValueError "unpack"
  ∧ ((∃ key,
        key ∈ feature_keys ∧ features !! key = None ∧ e = KeyError key
        ∧ events run = [])
     ∨ (∃ input_ids input_mask segment_ids label_ids,
          has_features features input_ids input_mask segment_ids label_ids
          ∧ create_model_ (String.eqb mode (PREDICT keys)) input_ids
              input_mask segment_ids label_ids num_labels
            = (inl e, events run))
     ∨ (∃ input_ids input_mask segment_ids label_ids loss predicted_labels
          log_probs calls,
          has_features features input_ids input_mask segment_ids label_ids
          ∧ mode ≠ PREDICT keys
          ∧ create_model_ false input_ids input_mask segment_ids label_ids
              num_labels
            = (inr (LossLabelsAndProbsTensors loss predicted_labels
                      log_probs), calls)
          ∧ compatible_shapes label_ids predicted_labels = false
          ∧ e = ValueError "incompatible shapes"
          ∧ events run
            = calls
              ++ [CreateOptimizer loss learning_rate num_train_steps
                    num_warmup_steps false;
                  CallMetricFn label_ids predicted_labels;
                  Metric Accuracy])).
Proof.
  intros run. subst run.
  destruct (model_fn_features keys BERT_MODEL_HUB pooled_output pooled_width
              variables draw num_labels learning_rate num_train_steps
              num_warmup_steps features labels mode params)
    as [(ids & mask & seg & lab & Hf)|(key & Hnone & Hrun & _)].
  - rewrite (model_fn_run_ _ _ _ _ _ _ _ _ _ _ _ _ Hf). cbv zeta.
    pose proof (create_model_run_ (String.eqb mode (PREDICT keys)) ids mask
                  seg lab num_labels) as Hrun. cbv zeta in Hrun.
    destruct (create_model_ _ ids mask seg lab num_labels)
      as [[e'|[p lp|l p lp]] t] eqn:Hcm.
    + intros [= <-]. split.
      * destruct (argmax _); [|by simplify_eq].
        destruct (String.eqb mode (PREDICT keys)); [done|].
        destruct (mul _ _); by simplify_eq.
      * right. left. by exists ids, mask, seg, lab.
    + destruct (String.eqb mode (PREDICT keys)); [done|]. exfalso.
      destruct (argmax _); [|done]. destruct (mul _ _); done.
    + destruct (String.eqb mode (PREDICT keys)) eqn:Hp.
      { exfalso. destruct (argmax _); done. }
      apply String.eqb_neq in Hp.
      destruct (compatible_shapes lab p) eqn:Hcompat; [done|].
      intros [= <-]. split; [done|]. right. right.
      exists ids, mask, seg, lab, l, p, lp, t. by split_and!.
  - rewrite Hrun. intros [= <-]. split; [done|]. left. exists key.
    split_and!; try done.
    pose proof Hrun as Hrun'.
    unfold model_fn_builder, getitem in Hrun. unfold feature_keys.
    destruct (features !! "input_ids") as [ids|] eqn:Hids;
      [|simplify_eq/=; set_solver].
    destruct (features !! "input_mask") as [mask|] eqn:Hmask;
      [|simplify_eq/=; set_solver].
    destruct (features !! "segment_ids") as [seg|] eqn:Hseg;
      [|simplify_eq/=; set_solver].
    destruct (features !! "label_ids") as [lab|] eqn:Hlab;
      [|simplify_eq/=; set_solver].
    exfalso. clear Hrun.
    assert (has_features features ids mask seg lab) as Hf by done.
    eapply (model_fn_reaches_create_model keys BERT_MODEL_HUB pooled_output
              pooled_width variables draw); [exact Hf|].
    by rewrite Hrun'.
Qed.

(** *** What the dispatcher builds *)

(** X5. In PREDICT mode [model_fn] never calls [create_optimizer] and
    builds none of the operations of the loss, however the run ends.  A
    run that returns in any other mode has built the four operations of
    the loss and called [create_optimizer] once. *)
Theorem predict_builds_no_training num_labels learning_rate num_train_steps
    num_warmup_steps features labels params :
  (let run := model_fn_ num_labels learning_rate num_train_steps
                num_warmup_steps features labels (PREDICT keys) params in
   optimizer_calls (events run) = [] ∧ loss_ops (events run) = 0%nat)
  ∧ (∀ mode spec,
       mode ≠ PREDICT keys →
       let run := model_fn_ num_labels learning_rate num_train_steps
                    num_warmup_steps features labels mode params in
       outcome run = inr spec →
       length (optimizer_calls (events run)) = 1%nat
       ∧ loss_ops (events run) = 4%nat).
Proof.
  split.
  - cbv zeta.
    destruct (model_fn_features keys BERT_MODEL_HUB pooled_output
                pooled_width variables draw num_labels learning_rate
                num_train_steps num_warmup_steps features labels
                (PREDICT keys) params)
      as [(ids & mask & seg & lab & Hf)|(key & _ & -> & _)]; [|done].
    rewrite (model_fn_run_ _ _ _ _ _ _ _ _ _ _ _ _ Hf). cbv zeta.
    rewrite String.eqb_refl, create_model_run_. cbv zeta.
    destruct (argmax _); done.
  - intros mode spec Hmode. cbv zeta.
    destruct (model_fn_features keys BERT_MODEL_HUB pooled_output
                pooled_width variables draw num_labels learning_rate
                num_train_steps num_warmup_steps features labels mode params)
      as [(ids & mask & seg & lab & Hf)|(key & _ & -> & _)]; [|done].
    rewrite (model_fn_run_ _ _ _ _ _ _ _ _ _ _ _ _ Hf). cbv zeta.
    apply String.eqb_neq in Hmode. rewrite Hmode, create_model_run_.
    cbv zeta.
    destruct (argmax _); [|done]. destruct (mul _ _); [|done].
    destruct (compatible_shapes _ _); done.
Qed.

(** X6. [model_fn] tests for PREDICT and for TRAIN only: in any other
    mode, EVAL or not, a run that returns has passed the given mode, the
    loss and the metrics to [EstimatorSpec], and neither predictions nor a
    training step. *)
Theorem other_mode_is_eval num_labels learning_rate num_train_steps
    num_warmup_steps features labels mode params spec :
  mode ≠ PREDICT keys → mode ≠ TRAIN keys →
  outcome (model_fn_ num_labels learning_rate num_train_steps
             num_warmup_steps features labels mode params) = inr spec →
  eval_bundle spec
  ∧ EstimatorSpec.mode spec = mode
  ∧ specs_built
      (events (model_fn_ num_labels learning_rate num_train_steps
                 num_warmup_steps features labels mode params))
    = [mode].
Proof.
  intros Hp Ht.
  destruct (model_fn_features keys BERT_MODEL_HUB pooled_output
              pooled_width variables draw num_labels learning_rate
              num_train_steps num_warmup_steps features labels mode params)
    as [(ids & mask & seg & lab & Hf)|(key & _ & -> & _)]; [|done].
  rewrite (model_fn_run_ _ _ _ _ _ _ _ _ _ _ _ _ Hf). cbv zeta.
  apply String.eqb_neq in Hp, Ht. rewrite Hp, Ht, create_model_run_.
  cbv zeta.
  destruct (argmax _); [|done]. destruct (mul _ _); [|done].
  destruct (compatible_shapes _ _); [|done].
  intros [= <-]. split_and!; [by eexists _, _ | done | done].
Qed.

(** X13. The metrics of the bundle of a mode other than PREDICT and TRAIN
    compare the tensor under "label_ids" with the predicted labels of the
    same run, the squeezed argmax of its log-probabilities: all nine of
    them. *)
Theorem eval_metrics_arguments num_labels learning_rate num_train_steps
    num_warmup_steps features labels mode params spec input_ids input_mask
    segment_ids label_ids :
  mode ≠ PREDICT keys → mode ≠ TRAIN keys →
  has_features features input_ids input_mask segment_ids label_ids →
  outcome (model_fn_ num_labels learning_rate num_train_steps
             num_warmup_steps features labels mode params) = inr spec →
  ∃ metrics indices,
    EstimatorSpec.eval_metric_ops spec = Some metrics
    ∧ size metrics = 9%nat
    ∧ argmax (log_probs_ input_ids input_mask segment_ids num_labels)
      = Some indices
    ∧ map_Forall (fun _ op => metric_labels op = label_ids
                              ∧ metric_predictions op = squeeze indices)
        metrics.
Proof.
  intros Hp Ht Hf.
  rewrite (model_fn_run_ _ _ _ _ _ _ _ _ _ _ _ _ Hf). cbv zeta.
  apply String.eqb_neq in Hp, Ht. rewrite Hp, Ht, create_model_run_.
  cbv zeta.
  destruct (argmax _) as [indices|]; [|done]. destruct (mul _ _); [|done].
  destruct (compatible_shapes _ _); [|done].
  intros [= <-]. exists (metric_ops label_ids (squeeze indices)), indices.
  split_and!; try done.
  intros key op Hop. apply elem_of_list_to_map_2 in Hop.
  repeat (apply elem_of_cons in Hop as [Heq|Hop];
          [by injection Heq as _ ->|]).
  by apply elem_of_nil in Hop.
Qed.

Lemma log_probs_of_nonpos input_ids input_mask segment_ids num_labels
    (row : list R) (p : R) :
  row ∈ log_probs_ input_ids input_mask segment_ids num_labels →
  p ∈ row → (p <= 0)%R.
Proof.
  unfold log_probs_of, log_softmax. intros Hrow Hp.
  apply list_elem_of_fmap in Hrow as (logits & -> & _).
  apply list_elem_of_lookup in Hp as [j Hj].
  by eapply log_softmax_row_nonpos.
Qed.

(** X14. What a PREDICT run returns under "probabilities" are the
    log-probabilities of the batch, none of them above 0, not the
    probabilities; under "labels" it returns the squeezed argmax of their
    rows; and the predictions hold nothing else. *)
Theorem predict_bundle_contents num_labels learning_rate num_train_steps
    num_warmup_steps features labels params spec input_ids input_mask
    segment_ids label_ids :
  has_features features input_ids input_mask segment_ids label_ids →
  outcome (model_fn_ num_labels learning_rate num_train_steps
             num_warmup_steps features labels (PREDICT keys) params)
  = inr spec →
  let log_probs := log_probs_ input_ids input_mask segment_ids num_labels in
  ∃ predictions indices,
    EstimatorSpec.predictions spec = Some predictions
    ∧ size predictions = 2%nat
    ∧ predictions !! "probabilities" = Some (FloatTensor log_probs)
    ∧ (∀ row p, row ∈ log_probs → p ∈ row → (p <= 0)%R)
    ∧ argmax log_probs = Some indices
    ∧ predictions !! "labels" = Some (IntTensor (squeeze indices)).
Proof.
  intros Hf.
  rewrite (model_fn_run_ _ _ _ _ _ _ _ _ _ _ _ _ Hf). cbv zeta.
  rewrite String.eqb_refl, create_model_run_. cbv zeta.
  destruct (argmax _) as [indices|] eqn:Hargmax; [|done].
  intros [= <-]. eexists _, indices. split_and!; try done.
  apply log_probs_of_nonpos.
Qed.

(** *** The classification head: shapes, ranges and independence *)

(** X7. Whenever [create_model] returns, there is one predicted label per
    example of the pooled output, and each of them is a class index: at
    least 0 and below [num_labels]. *)
Theorem predicted_labels_in_range is_predicting input_ids input_mask
    segment_ids labels num_labels out :
  outcome (create_model_ is_predicting input_ids input_mask segment_ids
             labels num_labels) = inr out →
  ∃ indices,
    out_predicted_labels out = squeeze indices
    ∧ length indices
      = length (pooled_output input_ids input_mask segment_ids)
    ∧ Forall (fun k => (0 <= k < Z.of_nat num_labels)%Z) indices.
Proof.
  intros Hout.
  apply (create_model_returns BERT_MODEL_HUB pooled_output pooled_width
           variables draw) in Hout as (indices & Hargmax & Hpred & _).
  exists indices. split; [done|].
  apply argmax_spec in Hargmax.
  split.
  - rewrite <- (Forall2_length _ _ _ Hargmax). apply log_probs_of_length.
  - apply Forall_forall. intros k Hk.
    apply list_elem_of_lookup in Hk as [i Hi].
    destruct (Forall2_lookup_r _ _ _ _ _ Hargmax Hi)
      as (row & Hrow & top & Hnn & Htop & _).
    apply lookup_lt_Some in Htop.
    pose proof (log_probs_of_rows pooled_output pooled_width variables draw
                  input_ids input_mask segment_ids num_labels) as Hrows.
    eapply Forall_lookup_1 in Hrows; [|exact Hrow]. simpl in Hrows. lia.
Qed.

(** X8. Whenever [create_model] returns, [log_probs] has one row per
    example of the pooled output, and every entry is the logarithm of a
    probability: it is at most 0 and its exponential is in (0, 1]. *)
Theorem log_probs_shape_and_sign is_predicting input_ids input_mask
    segment_ids labels num_labels out :
  outcome (create_model_ is_predicting input_ids input_mask segment_ids
             labels num_labels) = inr out →
  length (out_log_probs out)
  = length (pooled_output input_ids input_mask segment_ids)
  ∧ ∀ row p, row ∈ out_log_probs out → p ∈ row →
      (p <= 0)%R ∧ (0 < exp p <= 1)%R.
Proof.
  intros Hout.
  apply (create_model_returns BERT_MODEL_HUB pooled_output pooled_width
           variables draw) in Hout as (indices & _ & _ & -> & _).
  split; [apply log_probs_of_length|].
  intros row p Hrow Hp.
  pose proof (log_probs_of_nonpos _ _ _ _ _ _ Hrow Hp) as Hle.
  split; [done|]. split; [apply exp_pos|].
  rewrite <- exp_0. destruct Hle as [Hlt| ->]; [|lra].
  left. by apply exp_increasing.
Qed.

(** X15. The predicted labels and the log-probabilities do not depend on
    [is_predicting] nor on the labels: two returning runs on the same
    three input tensors return the same ones. *)
Theorem predictions_do_not_depend_on_mode is_predicting is_predicting'
    input_ids input_mask segment_ids labels labels' num_labels out out' :
  outcome (create_model_ is_predicting input_ids input_mask segment_ids
             labels num_labels) = inr out →
  outcome (create_model_ is_predicting' input_ids input_mask segment_ids
             labels' num_labels) = inr out' →
  out_predicted_labels out = out_predicted_labels out'
  ∧ out_log_probs out = out_log_probs out'.
Proof.
  intros Hout Hout'.
  apply (create_model_returns BERT_MODEL_HUB pooled_output pooled_width
           variables draw) in Hout as (indices & Hargmax & Hpred & Hlp & _).
  apply (create_model_returns BERT_MODEL_HUB pooled_output pooled_width
           variables draw) in Hout'
    as (indices' & Hargmax' & Hpred' & Hlp' & _).
  split; congruence.
Qed.

(** *** The loss *)

Lemma example_loss_nll (depth : nat) (label : Z) (row : list R) :
  spec_example_loss depth label row
  = negative_log_likelihood depth label row.
Proof.
  rewrite spec_example_loss_value. unfold negative_log_likelihood.
  destruct (decide _); [|done].
  destruct (row !! Z.to_nat label) as [p|] eqn:Hp.
  - by rewrite (nth_lookup_Some _ _ _ _ Hp).
  - rewrite nth_overflow; [lra|]. by apply lookup_ge_None.
Qed.

(** X10. On a vector of labels, one per example, the loss of a returning
    run is the mean over the batch of minus the log-probability of each
    example's label, an example whose label is outside [0, num_labels)
    counting for 0. *)
Theorem loss_is_mean_negative_log_likelihood input_ids input_mask segment_ids
    labels num_labels out :
  length labels = length (pooled_output input_ids input_mask segment_ids) →
  outcome (create_model_ false input_ids input_mask segment_ids
             (IntVector labels) num_labels) = inr out →
  out_loss out
  = Some (mean (zip_with (negative_log_likelihood num_labels) labels
                  (out_log_probs out))).
Proof.
  intros Hlen Hout.
  destruct (create_model_loss_value BERT_MODEL_HUB pooled_output pooled_width
              variables draw _ _ _ _ _ _ Hlen Hout) as [-> ->].
  rewrite spec_batch_loss_mean by by rewrite log_probs_of_length.
  do 2 f_equal. apply zip_with_ext; [|done..].
  intros. apply example_loss_nll.
Qed.

Lemma mean_zeros (xs : list R) : Forall (fun x => x = 0%R) xs → mean xs = 0%R.
Proof.
  intros Hall. unfold mean, Rdiv.
  assert (sum_list xs = 0%R) as ->; [|apply Rmult_0_l].
  induction Hall as [|x xs -> _ IH]; simpl; [done|]. rewrite IH. lra.
Qed.

(** X11. A label outside [0, num_labels) is not rejected: its one-hot row
    is all zeros and its example adds nothing to the loss.  On a batch of
    at least one example whose labels are all out of range,
    [create_model] returns a loss of exactly 0. *)
Theorem out_of_range_labels_zero_loss input_ids input_mask segment_ids labels
    num_labels :
  (0 < num_labels)%nat →
  labels ≠ [] →
  length labels = length (pooled_output input_ids input_mask segment_ids) →
  Forall (fun label => (label < 0 ∨ Z.of_nat num_labels <= label)%Z) labels →
  ∃ predicted_labels,
    outcome (create_model_ false input_ids input_mask segment_ids
               (IntVector labels) num_labels)
    = inr (LossLabelsAndProbsTensors 0 predicted_labels
             (log_probs_ input_ids input_mask segment_ids num_labels)).
Proof.
  intros Hpos _ Hlen Hout.
  destruct (create_model_loss_run BERT_MODEL_HUB pooled_output pooled_width
              variables draw input_ids input_mask segment_ids labels
              num_labels Hpos Hlen) as (indices & _ & ->).
  exists (squeeze indices). simpl. do 2 f_equal.
  rewrite spec_batch_loss_mean by by rewrite log_probs_of_length.
  apply mean_zeros. clear Hlen.
  generalize (log_probs_ input_ids input_mask segment_ids num_labels).
  induction Hout as [|l labels Hl _ IH]; intros rows; [constructor|].
  destruct rows as [|row rows]; [constructor|].
  simpl. constructor; [|apply IH].
  rewrite spec_example_loss_value. destruct (decide _); [lia | done].
Qed.

Lemma mul2_single (x : list R) (ys : list (list R)) :
  Forall (fun y => length y = length x) ys →
  mul2 [x] ys = Some (map (zip_with Rmult x) ys).
Proof.
  intros Hall. unfold mul2, broadcast.
  destruct (Nat.eqb (length [x]) (length ys)) eqn:Hlen.
  - destruct ys as [|y [|y' ys]]; try done. simpl.
    apply Forall_cons in Hall as [Hy _].
    by rewrite mul1_same_length.
  - apply mapM_Some. clear Hlen.
    induction Hall as [|y ys Hy _ IH]; simpl; constructor; [|exact IH].
    by apply mul1_same_length.
Qed.

(** X16. Outside prediction, a vector of a single label on a batch of at
    least one example is not rejected either: the label is broadcast, and
    the loss is the mean over the batch of minus the log-probability each
    example gives to that one label. *)
Theorem single_label_is_broadcast input_ids input_mask segment_ids label
    num_labels :
  (0 < num_labels)%nat →
  pooled_output input_ids input_mask segment_ids ≠ [] →
  let log_probs := log_probs_ input_ids input_mask segment_ids num_labels in
  ∃ predicted_labels,
    outcome (create_model_ false input_ids input_mask segment_ids
               (IntVector [label]) num_labels)
    = inr (LossLabelsAndProbsTensors
             (mean (map (negative_log_likelihood num_labels label)
                      log_probs))
             predicted_labels log_probs).
Proof.
  intros Hpos _ log_probs. subst log_probs.
  destruct (argmax_log_probs pooled_output pooled_width variables draw
              input_ids input_mask segment_ids num_labels Hpos)
    as [indices Hargmax].
  rewrite create_model_run_. cbv zeta. rewrite Hargmax.
  exists (squeeze indices).
  assert (mul (one_hot (IntVector [label]) num_labels)
            (log_probs_ input_ids input_mask segment_ids num_labels)
          = Some (FMatrix (map (zip_with Rmult (one_hot_row label num_labels))
                             (log_probs_ input_ids input_mask segment_ids
                                num_labels)))) as ->.
  { simpl. rewrite mul2_single; [done|].
    eapply Forall_impl; [apply log_probs_of_rows|]. simpl. intros row ->.
    unfold one_hot_row. by rewrite length_map, length_seq. }
  simpl. do 3 f_equal. rewrite !map_map. apply map_ext. intros row.
  rewrite <- example_loss_nll. unfold spec_example_loss.
  by rewrite spec_weighted_sum_zip, one_hot_row_spec.
Qed.

(** X18. On an empty batch with at least one class, predicting returns an
    empty vector of labels and no row of log-probabilities. *)
Theorem empty_batch_predicts_nothing input_ids input_mask segment_ids labels
    num_labels :
  (0 < num_labels)%nat →
  pooled_output input_ids input_mask segment_ids = [] →
  outcome (create_model_ true input_ids input_mask segment_ids labels
             num_labels)
  = inr (LabelsAndProbsTensors (IntVector []) []).
Proof.
  intros _ Hempty. rewrite create_model_run_. cbv zeta.
  unfold log_probs_of. by rewrite Hempty.
Qed.

(** *** A pooled output of zeros *)

Lemma dot_zeros (x w : list R) : Forall (fun v => v = 0%R) x → dot x w = 0%R.
Proof.
  intros Hall. unfold dot. revert w.
  induction Hall as [|v x -> _ IH]; intros [|w0 w]; simpl; try done.
  rewrite IH. lra.
Qed.

Lemma dropout_zeros (keep_prob : R) (x : list (list R)) :
  Forall (Forall (fun v => v = 0%R)) x →
  Forall (Forall (fun v => v = 0%R)) (dropout draw keep_prob x).
Proof.
  intros Hall. unfold dropout. apply Forall_lookup. intros i row Hrow.
  rewrite list_lookup_imap in Hrow.
  destruct (x !! i) as [row0|] eqn:Hrow0; [|done]. injection Hrow as <-.
  eapply Forall_lookup_1 in Hall; [|exact Hrow0].
  apply Forall_lookup. intros j v Hv. rewrite list_lookup_imap in Hv.
  destruct (row0 !! j) as [v0|] eqn:Hv0; [|done]. injection Hv as <-.
  eapply Forall_lookup_1 in Hall; [|exact Hv0]. simpl in Hall. subst v0.
  destruct (draw i j); [|done]. unfold Rdiv. apply Rmult_0_l.
Qed.

Lemma add_bias_to_zeros {A} (ws : list A) (bias : list R) :
  length ws = length bias →
  zip_with Rplus (map (fun _ => 0%R) ws) bias = bias.
Proof.
  revert bias. induction ws as [|w ws IH]; intros [|b bias] Hlen;
    simpl in *; try done.
  rewrite IH by lia. f_equal. lra.
Qed.

Lemma logits_of_zeros (dropout_layer : list (list R)) (num_labels : nat) :
  Forall (Forall (fun v => v = 0%R)) dropout_layer →
  logits_of pooled_width variables dropout_layer num_labels
  = replicate (length dropout_layer) (output_bias variables num_labels).
Proof.
  intros Hall. unfold logits_of, bias_add, matmul_transpose_b.
  induction Hall as [|x rows Hx _ IH]; simpl; [done|].
  rewrite IH. f_equal.
  rewrite (map_ext _ (fun _ => 0%R)) by (intros w; by apply dot_zeros).
  apply add_bias_to_zeros.
  unfold output_weights, output_bias. by rewrite !length_map, !length_seq.
Qed.

Lemma argmax_replicate (batch : nat) (row : list R) (k : Z) :
  argmax_row row = Some k →
  argmax (replicate batch row) = Some (replicate batch k).
Proof.
  intros Hk. unfold argmax. apply mapM_Some.
  induction batch; simpl; constructor; done.
Qed.

(** X9. When the pooled output is all zeros, the weights and the dropout
    draw play no part: the logits of every example are the bias, every
    row of [log_probs] is the log-softmax of the bias, and every predicted
    label is the argmax of that row, the same for all examples. *)
Theorem zero_pooled_output_gives_bias is_predicting input_ids input_mask
    segment_ids labels num_labels out :
  Forall (Forall (fun v => v = 0%R))
    (pooled_output input_ids input_mask segment_ids) →
  outcome (create_model_ is_predicting input_ids input_mask segment_ids
             labels num_labels) = inr out →
  let bias := output_bias variables num_labels in
  let batch := length (pooled_output input_ids input_mask segment_ids) in
  logits_of pooled_width variables
    (dropout draw (9 / 10)%R
       (pooled_output input_ids input_mask segment_ids)) num_labels
  = replicate batch bias
  ∧ out_log_probs out = replicate batch (log_softmax_row bias)
  ∧ ∀ k, argmax_row (log_softmax_row bias) = Some k →
      out_predicted_labels out = squeeze (replicate batch k).
Proof.
  intros Hzero Hout bias batch. subst bias batch.
  apply (create_model_returns BERT_MODEL_HUB pooled_output pooled_width
           variables draw) in Hout as (indices & Hargmax & -> & -> & _).
  assert (logits_of pooled_width variables
            (dropout draw (9 / 10)%R
               (pooled_output input_ids input_mask segment_ids)) num_labels
          = replicate
              (length (pooled_output input_ids input_mask segment_ids))
              (output_bias variables num_labels)) as Hlogits.
  { rewrite logits_of_zeros by by apply dropout_zeros.
    unfold dropout. by rewrite length_imap. }
  assert (log_probs_ input_ids input_mask segment_ids num_labels
          = replicate
              (length (pooled_output input_ids input_mask segment_ids))
              (log_softmax_row (output_bias variables num_labels))) as Hlp.
  { unfold log_probs_of. rewrite Hlogits. unfold log_softmax.
    apply fmap_replicate. }
  split_and!; [done..|].
  intros k Hk.
  rewrite Hlp, (argmax_replicate _ _ _ Hk) in Hargmax.
  by injection Hargmax as <-.
Qed.

(** X19. Outside PREDICT mode, a single label on a batch of two or more
    examples passes [create_model], which broadcasts it, and
    [create_optimizer]; then [metric_fn] rejects it: its shape is not the
    shape of the predicted labels, and [model_fn] fails with [ValueError]
    in the first metric, without a bundle. *)
Theorem single_label_rejected_by_metrics num_labels learning_rate
    num_train_steps num_warmup_steps features labels mode params input_ids
    input_mask segment_ids label :
  has_features features input_ids input_mask segment_ids
    (IntVector [label]) →
  (0 < num_labels)%nat →
  (1 < length (pooled_output input_ids input_mask segment_ids))%nat →
  mode ≠ PREDICT keys →
  ∃ loss predicted_labels log_probs calls,
    create_model_ false input_ids input_mask segment_ids
      (IntVector [label]) num_labels
    = (inr (LossLabelsAndProbsTensors loss predicted_labels log_probs),
       calls)
    ∧ model_fn_ num_labels learning_rate num_train_steps num_warmup_steps
        features labels mode params
      = (inl (ValueError "incompatible shapes"),
         calls
         ++ [CreateOptimizer loss learning_rate num_train_steps
               num_warmup_steps false;
             CallMetricFn (IntVector [label]) predicted_labels;
             Metric Accuracy]).
Proof.
  intros Hf Hpos Hbatch Hmode.
  destruct (argmax_log_probs pooled_output pooled_width variables draw
              input_ids input_mask segment_ids num_labels Hpos)
    as [indices Hargmax].
  pose proof (argmax_length pooled_output pooled_width variables draw _ _ _
                _ _ Hargmax) as Hlen.
  rewrite (model_fn_run_ _ _ _ _ _ _ _ _ _ _ _ _ Hf). cbv zeta.
  apply String.eqb_neq in Hmode. rewrite Hmode, create_model_run_.
  cbv zeta. rewrite Hargmax.
  assert (∃ product,
            mul (one_hot (IntVector [label]) num_labels)
              (log_probs_ input_ids input_mask segment_ids num_labels)
            = Some product) as [product ->].
  { simpl. rewrite mul2_single; [by eexists|].
    eapply Forall_impl; [apply log_probs_of_rows|]. simpl. intros row ->.
    unfold one_hot_row. by rewrite length_map, length_seq. }
  assert (compatible_shapes (IntVector [label]) (squeeze indices) = false)
    as ->.
  { unfold compatible_shapes.
    destruct indices as [|z [|z' indices]]; simpl in *;
      first [lia | by apply bool_decide_eq_false]. }
  by eexists _, _, _, _.
Qed.

End Further.

(** ** The further properties on concrete inputs *)

Lemma sample_loss_returns :
  ∃ out,
    outcome (Sample.create_model false Sample.input_ids Sample.input_mask
               Sample.segment_ids (IntVector [1; 0]%Z) 2) = inr out.
Proof.
  destruct (create_model_loss_run Sample.BERT_MODEL_HUB Sample.pooled_output
              Sample.pooled_width Sample.variables Sample.draw
              Sample.input_ids Sample.input_mask Sample.segment_ids
              [1; 0]%Z 2 ltac:(lia) sample_batch) as (indices & _ & Hrun).
  unfold Sample.create_model. rewrite Hrun. by eexists.
Qed.

Lemma sample_model_fn_returns (mode : string) :
  ∃ spec, outcome (Sample.model_fn Sample.features [] mode ∅) = inr spec.
Proof.
  exact (model_fn_returns Sample.keys Sample.BERT_MODEL_HUB
           Sample.pooled_output Sample.pooled_width Sample.variables
           Sample.draw 2 (2 / 100000)%R 100 10 Sample.features [] mode ∅
           _ _ _ _ sample_features ltac:(lia) sample_batch).
Qed.

Lemma model_fn_first_missing_key_witness :
  Sample.model_fn Edge.features_without_mask [] "infer" ∅
  = (inl (KeyError "input_mask"), []).
Proof.
  apply (model_fn_first_missing_key Sample.keys Sample.BERT_MODEL_HUB
           Sample.pooled_output Sample.pooled_width Sample.variables
           Sample.draw 2 (2 / 100000)%R 100 10 Edge.features_without_mask []
           "infer" ∅ ["input_ids"] "input_mask"
           ["segment_ids"; "label_ids"]).
  - reflexivity.
  - repeat constructor. by eexists.
  - reflexivity.
Defined.

Lemma model_fn_frame_witness :
  Sample.model_fn Edge.features_with_guid [1; 0]%Z "train"
    {[ "batch_size" := 32%Z ]}
  = Sample.model_fn Sample.features [] "train" ∅.
Proof.
  apply (model_fn_frame Sample.keys Sample.BERT_MODEL_HUB
           Sample.pooled_output Sample.pooled_width Sample.variables
           Sample.draw 2 (2 / 100000)%R 100 10).
  intros key Hkey. unfold feature_keys in Hkey.
  repeat (apply elem_of_cons in Hkey as [->|Hkey]; [reflexivity|]).
  by apply elem_of_nil in Hkey.
Defined.

Lemma dummy_labels_features :
  has_features Edge.features_dummy_labels Sample.input_ids Sample.input_mask
    Sample.segment_ids (IntMatrix [[5]]%Z).
Proof. by split_and!. Qed.

Lemma predict_ignores_label_values_witness :
  outcome (Sample.model_fn Sample.features [] "infer" ∅)
  = outcome (Sample.model_fn Edge.features_dummy_labels [] "infer" ∅).
Proof.
  exact (predict_ignores_label_values Sample.keys Sample.BERT_MODEL_HUB
           Sample.pooled_output Sample.pooled_width Sample.variables
           Sample.draw 2 (2 / 100000)%R 100 10 Sample.features
           Edge.features_dummy_labels [] [] ∅ ∅ _ _ _ _ _ sample_features
           dummy_labels_features).
Defined.

Lemma model_fn_failures_witness :
  outcome (Sample.model_fn Edge.features_without_mask [] "eval" ∅)
  = inl (KeyError "input_mask")
  ∧ KeyError "input_mask" ≠ ValueError "unpack".
Proof.
  assert (outcome (Sample.model_fn Edge.features_without_mask [] "eval" ∅)
          = inl (KeyError "input_mask")) as Hfail by reflexivity.
  split; [exact Hfail|].
  exact (proj1 (model_fn_failures Sample.keys Sample.BERT_MODEL_HUB
                  Sample.pooled_output Sample.pooled_width Sample.variables
                  Sample.draw 2 (2 / 100000)%R 100 10
                  Edge.features_without_mask [] "eval" ∅ _ Hfail)).
Defined.

Lemma predict_builds_no_training_witness :
  ∃ spec,
    outcome (Sample.model_fn Sample.features [] "train" ∅) = inr spec
    ∧ length (optimizer_calls
                (events (Sample.model_fn Sample.features [] "train" ∅)))
      = 1%nat
    ∧ loss_ops (events (Sample.model_fn Sample.features [] "train" ∅))
      = 4%nat
    ∧ loss_ops (events (Sample.model_fn Sample.features [] "infer" ∅))
      = 0%nat.
Proof.
  destruct (sample_model_fn_returns "train") as [spec Hspec].
  destruct (predict_builds_no_training Sample.keys Sample.BERT_MODEL_HUB
              Sample.pooled_output Sample.pooled_width Sample.variables
              Sample.draw 2 (2 / 100000)%R 100 10 Sample.features [] ∅)
    as [[_ Hpredict] Hother].
  destruct (Hother "train" spec ltac:(done) Hspec) as [Hopt Hloss].
  exists spec.
  split_and!; [exact Hspec | exact Hopt | exact Hloss | exact Hpredict].
Defined.

Lemma other_mode_is_eval_witness :
  ∃ spec,
    outcome (Sample.model_fn Sample.features [] "validate" ∅) = inr spec
    ∧ eval_bundle spec
    ∧ EstimatorSpec.mode spec = "validate".
Proof.
  destruct (sample_model_fn_returns "validate") as [spec Hspec].
  destruct (other_mode_is_eval Sample.keys Sample.BERT_MODEL_HUB
              Sample.pooled_output Sample.pooled_width Sample.variables
              Sample.draw 2 (2 / 100000)%R 100 10 Sample.features []
              "validate" ∅ spec ltac:(done) ltac:(done) Hspec)
    as (Hbundle & Hmode & _).
  exists spec. split_and!; [exact Hspec | exact Hbundle | exact Hmode].
Defined.

Lemma eval_metrics_arguments_witness :
  ∃ spec metrics indices,
    outcome (Sample.model_fn Sample.features [] "eval" ∅) = inr spec
    ∧ EstimatorSpec.eval_metric_ops spec = Some metrics
    ∧ size metrics = 9%nat
    ∧ map_Forall (fun _ op => metric_labels op = IntVector [1; 0]%Z
                              ∧ metric_predictions op = squeeze indices)
        metrics.
Proof.
  destruct (sample_model_fn_returns "eval") as [spec Hspec].
  destruct (eval_metrics_arguments Sample.keys Sample.BERT_MODEL_HUB
              Sample.pooled_output Sample.pooled_width Sample.variables
              Sample.draw 2 (2 / 100000)%R 100 10 Sample.features [] "eval"
              ∅ spec _ _ _ _ ltac:(done) ltac:(done) sample_features Hspec)
    as (metrics & indices & Hops & Hsize & _ & Hall).
  exists spec, metrics, indices.
  split_and!; [exact Hspec | exact Hops | exact Hsize | exact Hall].
Defined.

Lemma predict_bundle_contents_witness :
  ∃ spec predictions indices,
    outcome (Sample.model_fn Sample.features [] "infer" ∅) = inr spec
    ∧ EstimatorSpec.predictions spec = Some predictions
    ∧ size predictions = 2%nat
    ∧ predictions !! "labels" = Some (IntTensor (squeeze indices)).
Proof.
  destruct (sample_model_fn_returns "infer") as [spec Hspec].
  destruct (predict_bundle_contents Sample.keys Sample.BERT_MODEL_HUB
              Sample.pooled_output Sample.pooled_width Sample.variables
              Sample.draw 2 (2 / 100000)%R 100 10 Sample.features [] ∅ spec
              _ _ _ _ sample_features Hspec)
    as (predictions & indices & Hpreds & Hsize & _ & _ & _ & Hlabels).
  exists spec, predictions, indices.
  split_and!; [exact Hspec | exact Hpreds | exact Hsize | exact Hlabels].
Defined.

Lemma predicted_labels_in_range_witness :
  ∃ out indices,
    outcome (Sample.create_model true Sample.input_ids Sample.input_mask
               Sample.segment_ids Sample.label_ids 2) = inr out
    ∧ out_predicted_labels out = squeeze indices
    ∧ length indices = 2%nat
    ∧ Forall (fun k => (0 <= k < 2)%Z) indices.
Proof.
  destruct sample_predict_returns as [out Hout].
  destruct (predicted_labels_in_range Sample.BERT_MODEL_HUB
              Sample.pooled_output Sample.pooled_width Sample.variables
              Sample.draw true Sample.input_ids Sample.input_mask
              Sample.segment_ids Sample.label_ids 2 out Hout)
    as (indices & Hpred & Hlen & Hrange).
  exists out, indices.
  split_and!; [exact Hout | exact Hpred | exact Hlen | exact Hrange].
Defined.

Lemma log_probs_shape_and_sign_witness :
  ∃ out,
    outcome (Sample.create_model true Sample.input_ids Sample.input_mask
               Sample.segment_ids Sample.label_ids 2) = inr out
    ∧ length (out_log_probs out) = 2%nat
    ∧ ∀ row p, row ∈ out_log_probs out → p ∈ row →
        (p <= 0)%R ∧ (0 < exp p <= 1)%R.
Proof.
  destruct sample_predict_returns as [out Hout].
  destruct (log_probs_shape_and_sign Sample.BERT_MODEL_HUB
              Sample.pooled_output Sample.pooled_width Sample.variables
              Sample.draw true Sample.input_ids Sample.input_mask
              Sample.segment_ids Sample.label_ids 2 out Hout)
    as [Hlen Hsign].
  exists out. split_and!; [exact Hout | exact Hlen | exact Hsign].
Defined.

Lemma predictions_do_not_depend_on_mode_witness :
  ∃ out out',
    outcome (Sample.create_model true Sample.input_ids Sample.input_mask
               Sample.segment_ids Sample.label_ids 2) = inr out
    ∧ outcome (Sample.create_model false Sample.input_ids Sample.input_mask
                 Sample.segment_ids (IntVector [1; 0]%Z) 2) = inr out'
    ∧ out_predicted_labels out = out_predicted_labels out'
    ∧ out_log_probs out = out_log_probs out'.
Proof.
  destruct sample_predict_returns as [out Hout].
  destruct sample_loss_returns as [out' Hout'].
  destruct (predictions_do_not_depend_on_mode Sample.BERT_MODEL_HUB
              Sample.pooled_output Sample.pooled_width Sample.variables
              Sample.draw true false Sample.input_ids Sample.input_mask
              Sample.segment_ids Sample.label_ids (IntVector [1; 0]%Z) 2
              out out' Hout Hout') as [Hpred Hlp].
  exists out, out'.
  split_and!; [exact Hout | exact Hout' | exact Hpred | exact Hlp].
Defined.

Lemma edge_bias_argmax :
  argmax_row (log_softmax_row (output_bias Edge.variables 2)) = Some 1%Z.
Proof.
  unfold output_bias, Edge.variables, log_softmax_row. simpl.
  match goal with
  | |- context [Rlt_dec ?x ?y] =>
      destruct (Rlt_dec x y) as [_|H]; [reflexivity | exfalso; lra]
  end.
Qed.

Lemma edge_zero_pooled :
  Forall (Forall (fun v => v = 0%R))
    (Edge.zero_pooled_output Sample.input_ids Sample.input_mask
       Sample.segment_ids).
Proof. repeat constructor. Qed.

Lemma edge_zero_returns :
  ∃ out,
    outcome (create_model Sample.BERT_MODEL_HUB Edge.zero_pooled_output 3
               Edge.variables Edge.draw true Sample.input_ids
               Sample.input_mask Sample.segment_ids Sample.label_ids 2)
    = inr out.
Proof.
  destruct (create_model_predict_run Sample.BERT_MODEL_HUB
              Edge.zero_pooled_output 3 Edge.variables Edge.draw
              Sample.input_ids Sample.input_mask Sample.segment_ids
              Sample.label_ids 2 ltac:(lia)) as (indices & _ & Hrun).
  rewrite Hrun. by eexists.
Qed.

Lemma zero_pooled_output_gives_bias_witness :
  ∃ out,
    outcome (create_model Sample.BERT_MODEL_HUB Edge.zero_pooled_output 3
               Edge.variables Edge.draw true Sample.input_ids
               Sample.input_mask Sample.segment_ids Sample.label_ids 2)
    = inr out
    ∧ out_log_probs out
      = replicate 2 (log_softmax_row (output_bias Edge.variables 2))
    ∧ out_predicted_labels out = IntVector [1; 1]%Z.
Proof.
  destruct edge_zero_returns as [out Hout].
  destruct (zero_pooled_output_gives_bias Sample.BERT_MODEL_HUB
              Edge.zero_pooled_output 3 Edge.variables Edge.draw true
              Sample.input_ids Sample.input_mask Sample.segment_ids
              Sample.label_ids 2 out edge_zero_pooled Hout)
    as (_ & Hlp & Hpred).
  exists out.
  split_and!; [exact Hout | exact Hlp | exact (Hpred 1%Z edge_bias_argmax)].
Defined.

Lemma loss_is_mean_negative_log_likelihood_witness :
  ∃ out,
    outcome (Sample.create_model false Sample.input_ids Sample.input_mask
               Sample.segment_ids (IntVector [1; 0]%Z) 2) = inr out
    ∧ out_loss out
      = Some (mean (zip_with (negative_log_likelihood 2) [1; 0]%Z
                      (out_log_probs out))).
Proof.
  destruct sample_loss_returns as [out Hout].
  exists out. split; [exact Hout|].
  exact (loss_is_mean_negative_log_likelihood Sample.BERT_MODEL_HUB
           Sample.pooled_output Sample.pooled_width Sample.variables
           Sample.draw Sample.input_ids Sample.input_mask Sample.segment_ids
           [1; 0]%Z 2 out sample_batch Hout).
Defined.

Lemma out_of_range_labels_zero_loss_witness :
  ∃ predicted_labels,
    outcome (Sample.create_model false Sample.input_ids Sample.input_mask
               Sample.segment_ids (IntVector [2; -1]%Z) 2)
    = inr (LossLabelsAndProbsTensors 0 predicted_labels
             (log_probs_of Sample.pooled_output Sample.pooled_width
                Sample.variables Sample.draw Sample.input_ids
                Sample.input_mask Sample.segment_ids 2)).
Proof.
  apply (out_of_range_labels_zero_loss Sample.BERT_MODEL_HUB
           Sample.pooled_output Sample.pooled_width Sample.variables
           Sample.draw Sample.input_ids Sample.input_mask Sample.segment_ids
           [2; -1]%Z 2).
  - lia.
  - discriminate.
  - reflexivity.
  - repeat constructor; simpl; lia.
Defined.

Lemma single_label_is_broadcast_witness :
  ∃ predicted_labels,
    outcome (Sample.create_model false Sample.input_ids Sample.input_mask
               Sample.segment_ids (IntVector [1]%Z) 2)
    = inr (LossLabelsAndProbsTensors
             (mean (map (negative_log_likelihood 2 1)
                      (log_probs_of Sample.pooled_output Sample.pooled_width
                         Sample.variables Sample.draw Sample.input_ids
                         Sample.input_mask Sample.segment_ids 2)))
             predicted_labels
             (log_probs_of Sample.pooled_output Sample.pooled_width
                Sample.variables Sample.draw Sample.input_ids
                Sample.input_mask Sample.segment_ids 2)).
Proof.
  apply (single_label_is_broadcast Sample.BERT_MODEL_HUB
           Sample.pooled_output Sample.pooled_width Sample.variables
           Sample.draw Sample.input_ids Sample.input_mask Sample.segment_ids
           1%Z 2).
  - lia.
  - discriminate.
Defined.

Lemma empty_batch_predicts_nothing_witness :
  outcome (create_model Sample.BERT_MODEL_HUB Edge.empty_pooled_output 3
             Edge.variables Edge.draw true (IntMatrix []) (IntMatrix [])
             (IntMatrix []) (IntVector []) 2)
  = inr (LabelsAndProbsTensors (IntVector []) []).
Proof.
  apply (empty_batch_predicts_nothing Sample.BERT_MODEL_HUB
           Edge.empty_pooled_output 3 Edge.variables Edge.draw).
  - lia.
  - reflexivity.
Defined.

Lemma one_label_features :
  has_features Edge.features_one_label Sample.input_ids Sample.input_mask
    Sample.segment_ids (IntVector [1]%Z).
Proof. by split_and!. Qed.

Lemma single_label_rejected_by_metrics_witness :
  outcome (Sample.model_fn Edge.features_one_label [] "train" ∅)
  = inl (ValueError "incompatible shapes").
Proof.
  destruct (single_label_rejected_by_metrics Sample.keys
              Sample.BERT_MODEL_HUB Sample.pooled_output Sample.pooled_width
              Sample.variables Sample.draw 2 (2 / 100000)%R 100 10
              Edge.features_one_label [] "train" ∅ _ _ _ 1%Z
              one_label_features ltac:(lia) ltac:(simpl; lia) ltac:(done))
    as (loss & predicted & log_probs & calls & _ & Hrun).
  unfold Sample.model_fn. by rewrite Hrun.
Defined.
